(** * Front matter plugin of the JupyterLab extension (plugins/yaml.ts)

    A shallow embedding of [markdownitFrontMatterPlugin]: the block rule
    [frontMatter] that scans a leading fenced metadata block, and the renderer
    [renderFrontMatter] with its helpers [parseFrontMatterStr], [parseAuthor],
    [renderTitle], [renderDocMetas] and [renderDocMeta].

    Conventions.
    - A JavaScript string is a [string]; one [ascii] stands for one code unit
      (code units above 255 are outside the model).
    - Line numbers and offsets are [Z].
    - An array of numbers is a [list Z]; reading past its end gives
      [undefined] in JavaScript, which the scanner model reports as [Undef].
    - js-yaml ([yaml.load], [yaml.dump]) is a library outside the repository:
      it is a parameter of the render functions.
    - markdown-it's [StateBlock] is a library class: the fields the rule reads
      and writes are a record, and its methods [push] and [skipSpaces] are
      transcribed next to it. *)

From Stdlib Require Import ZArith List String Ascii Bool Lia QArith.
Import ListNotations.
Open Scope string_scope.
Open Scope Z_scope.
Set Warnings "-register-all".

(** Append of lists, kept apart from the append of strings. *)
Infix "+++" := (@List.app _) (at level 60, right associativity).

(** ** JavaScript strings *)

Definition nl : string := String "010"%char EmptyString.
Definition dq : string := String "034"%char EmptyString.

(** [s[i]]: the character at index [i], [None] for [undefined]. *)
Definition char_at (s : string) (i : Z) : option ascii :=
  if i <? 0 then None else String.get (Z.to_nat i) s.

(** [s.charCodeAt(i)]: [None] stands for [NaN]. *)
Definition charCodeAt (s : string) (i : Z) : option Z :=
  match char_at s i with
  | Some c => Some (Z.of_nat (nat_of_ascii c))
  | None => None
  end.

Definition opt_ascii_eqb (a b : option ascii) : bool :=
  match a, b with
  | Some x, Some y => Ascii.eqb x y
  | None, None => true
  | _, _ => false
  end.

Definition opt_Z_eqb (a b : option Z) : bool :=
  match a, b with
  | Some x, Some y => x =? y
  | None, None => true
  | _, _ => false
  end.

(** Index normalisation of [String.prototype.slice]: a negative index counts
    from the end, and the result is clamped to [0, len]. *)
Definition clamp_index (len i : Z) : Z :=
  if i <? 0 then Z.max (len + i) 0 else Z.min i len.

(** [s.slice(a, b)]. *)
Definition slice (s : string) (a b : Z) : string :=
  let len := Z.of_nat (String.length s) in
  let from := clamp_index len a in
  let to := clamp_index len b in
  substring (Z.to_nat from) (Z.to_nat (to - from)) s.

(** [s.slice(a, b)] where [a] may be [undefined] (it then counts as 0). *)
Definition slice_from (s : string) (a : option Z) (b : Z) : string :=
  match a with
  | Some a' => slice s a' b
  | None => slice s 0 b
  end.

(** [arr[i]] on an array of numbers. *)
Definition arr_get (l : list Z) (i : Z) : option Z :=
  if i <? 0 then None else nth_error l (Z.to_nat i).

(** [rendered.join(sep)]. *)
Fixpoint join (sep : string) (l : list string) : string :=
  match l with
  | [] => EmptyString
  | [x] => x
  | x :: rest => x ++ sep ++ join sep rest
  end.

(** ** markdown-it: Token and StateBlock *)

Record Token : Type := mkToken {
  tok_type : string;
  tok_tag : string;
  tok_nesting : Z;
  tok_level : Z;
  tok_block : bool;
  tok_hidden : bool;
  tok_markup : string;
  tok_map : option (Z * Z);
  tok_meta : string
}.

Record StateBlock : Type := mkState {
  src : string;
  bMarks : list Z;
  eMarks : list Z;
  tShift : list Z;
  sCount : list Z;
  blkIndent : Z;
  line : Z;
  lineMax : Z;
  parentType : string;
  level : Z;
  tokens : list Token
}.

(** markdown-it's [isSpace]: tab and space. *)
Definition isSpace (c : option Z) : bool :=
  match c with
  | Some 9 => true
  | Some 32 => true
  | _ => false
  end.

(** markdown-it's [StateBlock.prototype.skipSpaces]:
    [for (max = src.length; pos < max; pos++) if (!isSpace(code)) break;]
    The counter [n] is the number of positions left before [src.length]. *)
Fixpoint skipSpaces_from (n : nat) (s : string) (pos : Z) : Z :=
  match n with
  | O => pos
  | S n' =>
      if pos <? Z.of_nat (String.length s) then
        if isSpace (charCodeAt s pos) then skipSpaces_from n' s (pos + 1)
        else pos
      else pos
  end.

Definition skipSpaces (st : StateBlock) (pos : Z) : Z :=
  skipSpaces_from (Z.to_nat (Z.of_nat (String.length (src st)) - pos)) (src st) pos.

(** markdown-it's [StateBlock.prototype.push] for a token of nesting 0, followed
    by the assignments the rule makes to the fresh token. *)
Definition push (st : StateBlock) (t : Token) : StateBlock :=
  mkState (src st) (bMarks st) (eMarks st) (tShift st) (sCount st)
          (blkIndent st) (line st) (lineMax st) (parentType st) (level st)
          (tokens st +++ [t]).

Definition set_parentType (st : StateBlock) (p : string) : StateBlock :=
  mkState (src st) (bMarks st) (eMarks st) (tShift st) (sCount st)
          (blkIndent st) (line st) (lineMax st) p (level st) (tokens st).

Definition set_lineMax (st : StateBlock) (m : Z) : StateBlock :=
  mkState (src st) (bMarks st) (eMarks st) (tShift st) (sCount st)
          (blkIndent st) (line st) m (parentType st) (level st) (tokens st).

Definition set_line (st : StateBlock) (l : Z) : StateBlock :=
  mkState (src st) (bMarks st) (eMarks st) (tShift st) (sCount st)
          (blkIndent st) l (lineMax st) (parentType st) (level st) (tokens st).

(** ** The block rule [frontMatter] *)

Definition min_markers : Z := 3.
Definition marker_str : string := "-".
Definition marker_char : option Z := charCodeAt marker_str 0.
Definition marker_len : Z := Z.of_nat (String.length marker_str).

(** [marker_str[(pos - start) % marker_len] !== state.src[pos]] *)
Definition marker_mismatch (s : string) (start pos : Z) : bool :=
  negb (opt_ascii_eqb (char_at marker_str (Z.rem (pos - start) marker_len))
                      (char_at s pos)).

(** [for (pos = ...; pos <= max; pos++) { if (mismatch) { ...; break; } }]
    The counter [n] is the number of positions left up to [max] included; the
    result is the final [pos] and whether the loop left through [break]. *)
Fixpoint marker_run (n : nat) (s : string) (start pos max : Z) : Z * bool :=
  match n with
  | O => (pos, false)
  | S n' =>
      if pos <=? max then
        if marker_mismatch s start pos then (pos, true)
        else marker_run n' s start (pos + 1) max
      else (pos, false)
  end.

Definition scan_run (s : string) (start max : Z) : Z * bool :=
  marker_run (Z.to_nat (max - start)) s start (start + 1) max.

(** What the scan can report: a value, an array read past its end (the
    arithmetic on [undefined] is not modelled), or a loop that used up the
    iterations it was given. *)
Inductive outcome (A : Type) : Type :=
| Ret (a : A)
| Undef
| OutOfFuel.
Arguments Ret {A} a.
Arguments Undef {A}.
Arguments OutOfFuel {A}.

(** The offsets of one line, read from the state's arrays. *)
Record line_info : Type := mkLine {
  li_start : Z;      (* bMarks[l] + tShift[l] *)
  li_max : Z;        (* eMarks[l] *)
  li_sCount : Z      (* sCount[l] *)
}.

Definition read_line (st : StateBlock) (l : Z) : option line_info :=
  match arr_get (bMarks st) l, arr_get (tShift st) l,
        arr_get (eMarks st) l, arr_get (sCount st) l with
  | Some b, Some t, Some e, Some sc => Some (mkLine (b + t) e sc)
  | _, _, _, _ => None
  end.

(** The opening fence (lines 40 to 67 of the source): [None] for
    [return false], otherwise [marker_count], [pos] and [start_content]. *)
Definition opening (st : StateBlock) (startLine : Z)
  : outcome (option (Z * Z * option Z * Z * Z)) :=
  if negb (startLine =? 0) || negb (opt_Z_eqb marker_char (charCodeAt (src st) 0))
  then Ret None
  else
    match arr_get (bMarks st) startLine, arr_get (tShift st) startLine,
          arr_get (eMarks st) startLine with
    | Some b, Some t, Some e =>
        let start := b + t in
        let max := e in
        let '(pos, broke) := scan_run (src st) start max in
        let start_content := if broke then Some (pos + 1) else None in
        let marker_count := (pos - start) / marker_len in
        if marker_count <? min_markers then Ret None
        else
          let pos := pos - Z.rem (pos - start) marker_len in
          Ret (Some (marker_count, pos, start_content, start, max))
    | _, _, _ => Undef
    end.

(** How the body scan treats one line once its offsets are read. *)
Inductive verdict : Type :=
| Stop       (* non-empty line with negative indent: break *)
| Content    (* continue *)
| Closing.   (* found: auto_closed = true; break *)

(** Lines 92 to 129 of the source, for the line with offsets [li]; the second
    component is the value of [pos] afterwards ([None]: left as it was). *)
Definition examine (st : StateBlock) (marker_count : Z) (li : line_info)
  : verdict * option Z :=
  let start := li_start li in
  let max := li_max li in
  if (start <? max) && (li_sCount li <? blkIndent st) then (Stop, None)
  else if negb (opt_Z_eqb marker_char (charCodeAt (src st) start)) then (Content, None)
  else if li_sCount li - blkIndent st >=? 4 then (Content, None)
  else
    let pos := fst (scan_run (src st) start max) in
    if (pos - start) / marker_len <? marker_count then (Content, Some pos)
    else
      let pos := pos - Z.rem (pos - start) marker_len in
      let pos := skipSpaces st pos in
      if pos <? max then (Content, Some pos)
      else (Closing, Some pos).

(** The local variables of the rule when the search for the end stops. *)
Record scan_end : Type := mkEnd {
  end_nextLine : Z;
  end_start : Z;
  end_max : Z;
  end_pos : Z;
  end_auto_closed : bool
}.

Definition new_pos (old : Z) (p : option Z) : Z :=
  match p with Some p' => p' | None => old end.

(** The loop [for (;;) { nextLine++; ... }] (lines 77 to 130). *)
Fixpoint body_loop (fuel : nat) (st : StateBlock) (endLine marker_count : Z)
         (nextLine start max pos : Z) : outcome scan_end :=
  match fuel with
  | O => OutOfFuel
  | S fuel' =>
      let nextLine := nextLine + 1 in
      if nextLine >=? endLine then Ret (mkEnd nextLine start max pos false)
      else if String.eqb (slice (src st) start max) "..." then
        Ret (mkEnd nextLine start max pos false)
      else
        match read_line st nextLine with
        | None => Undef
        | Some li =>
            let start := li_start li in
            let max := li_max li in
            match examine st marker_count li with
            | (Stop, p) => Ret (mkEnd nextLine start max (new_pos pos p) false)
            | (Content, p) =>
                body_loop fuel' st endLine marker_count nextLine start max (new_pos pos p)
            | (Closing, p) => Ret (mkEnd nextLine start max (new_pos pos p) true)
            end
        end
  end.

(** [state.line = nextLine + (auto_closed ? 1 : 0)] *)
Definition resume_line (r : scan_end) : Z :=
  end_nextLine r + (if end_auto_closed r then 1 else 0).

(** Lines 132 to 148: the token is pushed while [parentType] and [lineMax]
    are narrowed, then both are put back and [state.line] is set. *)
Definition emit (st : StateBlock) (startLine : Z) (start_content : option Z)
           (r : scan_end) : StateBlock :=
  let old_parent := parentType st in
  let old_line_max := lineMax st in
  let st1 := set_parentType st "root" in
  let st2 := set_lineMax st1 (end_nextLine r) in
  let token :=
    mkToken "front_matter" EmptyString 0 (level st2) true true
            (slice (src st2) startLine (end_pos r))
            (Some (startLine, end_pos r))
            (slice_from (src st2) start_content (end_start r - 1)) in
  let st3 := push st2 token in
  let st4 := set_parentType st3 old_parent in
  let st5 := set_lineMax st4 old_line_max in
  set_line st5 (resume_line r).

(** What one call of the rule leaves behind: its boolean, the state, and the
    arguments the optional callback [cb] was called with. *)
Record rule_result : Type := mkResult {
  matched : bool;
  state_after : StateBlock;
  cb_calls : list string
}.

Definition frontMatter (fuel : nat) (has_cb : bool) (st : StateBlock)
           (startLine endLine : Z) (silent : bool) : outcome rule_result :=
  match opening st startLine with
  | Undef => Undef
  | OutOfFuel => OutOfFuel
  | Ret None => Ret (mkResult false st [])
  | Ret (Some (marker_count, pos, start_content, start, max)) =>
      if silent then Ret (mkResult true st [])
      else
        match body_loop fuel st endLine marker_count startLine start max pos with
        | Undef => Undef
        | OutOfFuel => OutOfFuel
        | Ret r =>
            let st' := emit st startLine start_content r in
            let meta := slice_from (src st) start_content (end_start r - 1) in
            Ret (mkResult true st' (if has_cb then [meta] else []))
        end
  end.

(** ** markdown-it: how a [StateBlock] is built from a source text

    The constructor of [StateBlock] (library code) walks the text once and
    records, for every line, its first offset, the offset of its line feed
    (or of the end of the text), its indent in characters and its indent in
    columns; it then appends one extra entry at [src.length].  It is used here
    to build the states of the examples. *)

Record marks : Type := mkMarks {
  m_b : list Z; m_e : list Z; m_t : list Z; m_s : list Z
}.

Definition add_line (m : marks) (b e t s : Z) : marks :=
  mkMarks (m_b m +++ [b]) (m_e m +++ [e]) (m_t m +++ [t]) (m_s m +++ [s]).

Fixpoint index_lines (rest : string) (pos start indent offset : Z)
         (indent_found : bool) (m : marks) : marks :=
  match rest with
  | EmptyString => m
  | String c rest' =>
      let ch := Z.of_nat (nat_of_ascii c) in
      if negb indent_found && isSpace (Some ch) then
        index_lines rest' (pos + 1) start (indent + 1)
                    (if ch =? 9 then offset + (4 - Z.rem offset 4) else offset + 1)
                    false m
      else if (ch =? 10) || (String.eqb rest' EmptyString) then
        let pos' := if ch =? 10 then pos else pos + 1 in
        index_lines rest' (pos' + 1) (pos' + 1) 0 0 false
                    (add_line m start pos' indent offset)
      else index_lines rest' (pos + 1) start indent offset true m
  end.

Definition newStateBlock (s : string) : StateBlock :=
  let len := Z.of_nat (String.length s) in
  let m := add_line (index_lines s 0 0 0 0 false (mkMarks [] [] [] [])) len len 0 0 in
  mkState s (m_b m) (m_e m) (m_t m) (m_s m) 0 0
          (Z.of_nat (List.length (m_b m)) - 1) "root" 0 [].

(** The document of the specification's first example:
    three dashes, [title: Foo], three dashes, an empty line, [Body]. *)
Definition doc_foo : string :=
  "---" ++ nl ++ "title: Foo" ++ nl ++ "---" ++ nl ++ nl ++ "Body".

Definition st_foo : StateBlock := newStateBlock doc_foo.

(** ** JavaScript values, as [yaml.load] returns them *)

Inductive number : Type :=
| NaN
| Infinity (negative : bool)
| Finite (q : Q).

Inductive jsval : Type :=
| JUndefined
| JNull
| JBool (b : bool)
| JNum (n : number)
| JStr (s : string)
| JDate (ms : Z)
| JArr (items : list jsval)
| JObj (props : list (string * jsval)).

Definition typeof (v : jsval) : string :=
  match v with
  | JUndefined => "undefined"
  | JNull => "object"
  | JBool _ => "boolean"
  | JNum _ => "number"
  | JStr _ => "string"
  | JDate _ => "object"
  | JArr _ => "object"
  | JObj _ => "object"
  end.

(** ToBoolean. *)
Definition truthy (v : jsval) : bool :=
  match v with
  | JUndefined => false
  | JNull => false
  | JBool b => b
  | JNum NaN => false
  | JNum (Infinity _) => true
  | JNum (Finite q) => negb (Qnum q =? 0)
  | JStr s => negb (String.eqb s EmptyString)
  | JDate _ => true
  | JArr _ => true
  | JObj _ => true
  end.

(** [v === s] for a string [s]. *)
Definition strict_eq_string (v : jsval) (s : string) : bool :=
  match v with
  | JStr s' => String.eqb s' s
  | _ => false
  end.

Inductive exn : Type :=
| TypeError
| YAMLException.

Inductive result (A : Type) : Type :=
| Ok (a : A)
| Throw (e : exn).
Arguments Ok {A} a.
Arguments Throw {A} e.

Definition bind {A B : Type} (r : result A) (k : A -> result B) : result B :=
  match r with
  | Ok a => k a
  | Throw e => Throw e
  end.

Notation "x <- r ;; k" := (bind r (fun x => k))
  (at level 61, r at next level, right associativity).
Notation "' p <- r ;; k" := (bind r (fun x => let p := x in k))
  (at level 61, p pattern, r at next level, right associativity).

Fixpoint lookup (props : list (string * jsval)) (key : string) : option jsval :=
  match props with
  | [] => None
  | (k, v) :: rest => if String.eqb k key then Some v else lookup rest key
  end.

Definition remove_key (props : list (string * jsval)) (key : string)
  : list (string * jsval) :=
  filter (fun kv => negb (String.eqb (fst kv) key)) props.

Definition keys (props : list (string * jsval)) : list string := map fst props.

(** [v[key]] for the keys this file reads ([title], [name], [author], ...):
    none of them is a property of strings, numbers, arrays or dates; reading
    a property of [null] or [undefined] throws. *)
Definition get_prop (v : jsval) (key : string) : result jsval :=
  match v with
  | JUndefined => Throw TypeError
  | JNull => Throw TypeError
  | JObj props =>
      match lookup props key with
      | Some x => Ok x
      | None => Ok JUndefined
      end
  | _ => Ok JUndefined
  end.

(** [delete v[key]]. *)
Definition delete_prop (v : jsval) (key : string) : result jsval :=
  match v with
  | JUndefined => Throw TypeError
  | JNull => Throw TypeError
  | JObj props => Ok (JObj (remove_key props key))
  | _ => Ok v
  end.

(** ** The renderer *)

Record Author : Type := mkAuthor {
  name : string;
  affil : option (list string);
  orcid : option string
}.

Record TitleBlock : Type := mkTitleBlock {
  title : option string;
  subtitle : option string;
  abstract : option string;
  date : option string;
  modified : option string;
  doi : option string;
  authors : option (list Author)
}.

(** [\s] of a regular expression, on code units below 256. *)
Definition is_regex_space (c : ascii) : bool :=
  match nat_of_ascii c with
  | 9%nat | 10%nat | 11%nat | 12%nat | 13%nat | 32%nat | 160%nat => true
  | _ => false
  end.

Fixpoint all_regex_space (s : string) : bool :=
  match s with
  | EmptyString => true
  | String c s' => is_regex_space c && all_regex_space s'
  end.

(** [str.replace(/---\s*$/, "")]: the leftmost place where three dashes are
    followed by white space only up to the end of the text, if any, is cut. *)
Fixpoint replace_closing_fence (s : string) : string :=
  match s with
  | EmptyString => EmptyString
  | String c s' =>
      if String.prefix "---" s && all_regex_space (substring 3 (String.length s - 3) s)
      then EmptyString
      else String c (replace_closing_fence s')
  end.

(** [typeof(v[key]) === "string" ? v[key] : defaultValue] *)
Definition str_prop (v : jsval) (key : string) (defaultValue : option string)
  : result (option string) :=
  x <- get_prop v key ;;
  if String.eqb (typeof x) "string" then
    y <- get_prop v key ;;
    Ok (match y with JStr s => Some s | _ => None end)
  else Ok defaultValue.

(** One call of the callback given to [affils.forEach]: the strings it pushes.
    The second test is [typeof(affilRaw === "object")]: the [typeof] of a
    boolean, a non-empty string. *)
Definition affil_entry (affilRaw : jsval) : result (list string) :=
  if String.eqb (typeof affilRaw) "string" then
    Ok (match affilRaw with JStr s => [s] | _ => [] end)
  else if truthy (JStr (typeof (JBool (strict_eq_string affilRaw "object")))) then
    n <- get_prop affilRaw "name" ;;
    if String.eqb (typeof n) "string" then
      Ok (match n with JStr s => [s] | _ => [] end)
    else Ok []
  else Ok [].

Fixpoint affil_entries (affils : list jsval) : result (list string) :=
  match affils with
  | [] => Ok []
  | a :: rest =>
      xs <- affil_entry a ;;
      ys <- affil_entries rest ;;
      Ok (xs +++ ys)
  end.

Definition as_array (v : jsval) : list jsval :=
  match v with
  | JArr items => items
  | _ => [v]
  end.

Definition opt_truthy (o : option string) : bool :=
  match o with
  | Some s => negb (String.eqb s EmptyString)
  | None => false
  end.

(** Lines 336 to 353: the affiliations of an object-typed author item. *)
Definition author_affiliations (authorRaw : jsval) : result (list string) :=
  affiliationSimple <- str_prop authorRaw "affiliation" None ;;
  if opt_truthy affiliationSimple then
    match affiliationSimple with
    | Some s => Ok [s]
    | None => Ok []
    end
  else
    a <- get_prop authorRaw "affiliations" ;;
    if truthy a then affil_entries (as_array a) else Ok [].

(** The body of the loop of [parseAuthor]: the authors one item contributes. *)
Definition author_item (authorRaw : jsval) : result (list Author) :=
  if String.eqb (typeof authorRaw) "string" then
    match authorRaw with
    | JStr s => Ok [mkAuthor s None None]
    | _ => Ok []
    end
  else if String.eqb (typeof authorRaw) "object" then
    affiliations <- author_affiliations authorRaw ;;
    n <- str_prop authorRaw "name" (Some EmptyString) ;;
    o <- str_prop authorRaw "orcid" None ;;
    Ok [mkAuthor (match n with Some s => s | None => EmptyString end)
                 (Some affiliations) o]
  else Ok [].

Fixpoint author_items (authorsRaw : list jsval) : result (list Author) :=
  match authorsRaw with
  | [] => Ok []
  | a :: rest =>
      xs <- author_item a ;;
      ys <- author_items rest ;;
      Ok (xs +++ ys)
  end.

Definition parseAuthor (author : jsval) : result (list Author) :=
  author_items (as_array author).

Definition renderDocMeta (label : string) (vals : list string) : string :=
  join nl (["<div class=" ++ dq ++ "quarto-meta" ++ dq ++ ">";
            "<p class=" ++ dq ++ "quarto-meta-title" ++ dq ++ ">" ++ label ++ "</p>"]
           +++ map (fun val => "<p>" ++ val ++ "</p>") vals
           +++ ["</div>"]).

Definition renderDocMetas (docMetas : list string) : string :=
  join nl (["<div class=" ++ dq ++ "quarto-meta-block" ++ dq ++ ">"]
           +++ docMetas +++ ["</div>"]).

(** The rows one author adds to the names column and to the affiliations
    column. *)
Definition name_rows (a : Author) : list string :=
  let emptyCount :=
    match affil a with
    | Some l => Z.max (Z.of_nat (List.length l) - 1) 0
    | None => 0
    end in
  name a :: repeat "&nbsp;" (Z.to_nat emptyCount).

Definition affil_rows (a : Author) : list string :=
  match affil a with
  | Some l => l
  | None => []
  end.

Definition when (b : bool) (l : list string) : list string :=
  if b then l else [].

Definition opt_string (o : option string) : string :=
  match o with Some s => s | None => "undefined" end.

Definition authors_blocks (tb : TitleBlock) : list string :=
  match authors tb with
  | Some (a :: rest) =>
      let names := flat_map name_rows (a :: rest) in
      let affils := flat_map affil_rows (a :: rest) in
      let authLabel := if (List.length names =? 1)%nat then "Author" else "Authors" in
      let affilLabel :=
        if (List.length affils =? 1)%nat then "Affiliation" else "Affiliations" in
      renderDocMeta authLabel names
        :: when (0 <? List.length affils)%nat [renderDocMeta affilLabel affils]
  | _ => []
  end.

Definition metadataBlocks (tb : TitleBlock) : list string :=
  authors_blocks tb
  +++ when (opt_truthy (date tb)) [renderDocMeta "Date" [opt_string (date tb)]]
  +++ when (opt_truthy (modified tb)) [renderDocMeta "Date" [opt_string (modified tb)]]
  +++ when (opt_truthy (doi tb))
        [renderDocMeta "DOI"
           ["<a href=" ++ dq ++ "https://doi.org/" ++ opt_string (doi tb) ++ dq ++ ">"
            ++ opt_string (doi tb) ++ "</a>"]].

Definition renderTitle (tb : TitleBlock) : string :=
  join nl
    (when (opt_truthy (title tb)) ["<h1>" ++ opt_string (title tb) ++ "</h1>"]
     +++ when (opt_truthy (subtitle tb))
          ["<p class=" ++ dq ++ "quarto-subtitle" ++ dq ++ ">"
           ++ opt_string (subtitle tb) ++ "</p>"]
     +++ when (0 <? List.length (metadataBlocks tb))%nat
          [renderDocMetas (metadataBlocks tb)]
     +++ when (opt_truthy (abstract tb))
          ["<p class=" ++ dq ++ "quarto-abstract" ++ dq ++ ">"
           ++ opt_string (abstract tb) ++ "</p>"]).

(** The closure [readStr] of [renderFrontMatter]: the value read and the
    mapping afterwards. *)
Definition readStr (frontMatter : jsval) (key : string)
  : result (option string * jsval) :=
  x <- get_prop frontMatter key ;;
  if String.eqb (typeof x) "string" then
    val <- get_prop frontMatter key ;;
    fm' <- delete_prop frontMatter key ;;
    Ok (match val with JStr s => Some s | _ => None end, fm')
  else Ok (None, frontMatter).

(** [a || b], the right operand being evaluated only when needed. *)
Definition js_or (a : jsval) (b : result jsval) : result jsval :=
  if truthy a then Ok a else b.

(** Lines 174 to 198: the title block and what is left of the mapping. *)
Definition extractTitleBlock (frontMatter : jsval) : result (TitleBlock * jsval) :=
  '(t, fm) <- readStr frontMatter "title" ;;
  '(s, fm) <- readStr fm "subtitle" ;;
  '(a, fm) <- readStr fm "abstract" ;;
  '(d, fm) <- readStr fm "date" ;;
  '(m, fm) <- readStr fm "date-modified" ;;
  '(i, fm) <- readStr fm "doi" ;;
  au <- get_prop fm "author" ;;
  arg <- js_or au (get_prop fm "authors") ;;
  auths <- parseAuthor arg ;;
  fm <- delete_prop fm "author" ;;
  fm <- delete_prop fm "authors" ;;
  Ok (mkTitleBlock t s a d m i (Some auths), fm).

Section WithYaml.

(** js-yaml: [load] returns a value or throws; [dump] prints a value (it
    does not throw on the values [load] returns). *)
Variable yaml_load : string -> result jsval.
Variable yaml_dump : jsval -> string.

Definition parseFrontMatterStr (str : string) : jsval :=
  let str := replace_closing_fence str in
  match yaml_load str with
  | Ok v => v
  | Throw _ => JUndefined
  end.

Definition renderFrontMatter (toks : list Token) (idx : nat) : result string :=
  match nth_error toks idx with
  | None => Throw TypeError
  | Some token =>
      let frontUnknown := parseFrontMatterStr (tok_markup token) in
      if String.eqb (typeof frontUnknown) "object" then
        '(titleBlock, frontMatter) <- extractTitleBlock frontUnknown ;;
        Ok (renderTitle titleBlock ++ nl ++ "<pre>" ++ nl
            ++ yaml_dump frontMatter ++ nl ++ "</pre>")
      else Ok EmptyString
  end.

End WithYaml.

(** js-yaml on the documents of the examples below; a text that is not listed
    stands for a malformed one. *)
Definition yaml_load_sample (s : string) : result jsval :=
  if String.eqb s ("---" ++ nl ++ "title: Foo" ++ nl) then
    Ok (JObj [("title", JStr "Foo")])
  else if String.eqb s ("---" ++ nl ++ "null" ++ nl) then Ok JNull
  else if String.eqb s ("---" ++ nl ++ "- a" ++ nl) then Ok (JArr [JStr "a"])
  else Throw YAMLException.

(** js-yaml's dump of the values left over in the examples. *)
Definition yaml_dump_sample (v : jsval) : string :=
  match v with
  | JObj [] => "{}" ++ nl
  | JArr [JStr a] => "- " ++ a ++ nl
  | _ => EmptyString
  end.

(** An opening fence, a line of three dots, two more lines. *)
Definition doc_dots : string :=
  "---" ++ nl ++ "..." ++ nl ++ "a" ++ nl ++ "b".

Definition st_dots : StateBlock := newStateBlock doc_dots.

(** An opening fence that nothing closes. *)
Definition doc_unclosed : string :=
  "---" ++ nl ++ "a" ++ nl ++ "b".

Definition st_unclosed : StateBlock := newStateBlock doc_unclosed.

(** ** Notions used in the statements *)

(** The four conditions on a line with offsets [li], in the words of the
    specification: (a) the character after the indentation is the marker,
    (b) the indent relative to the block indent is less than 4, (c) the run of
    markers that starts there, [start .. p), is at least as long as the opening
    one, (d) from the end of the run to the end of the line there are only
    spaces and tabs. *)
Definition closing_conditions (st : StateBlock) (marker_count : Z) (li : line_info)
  : Prop :=
  char_at (src st) (li_start li) = Some "-"%char
  /\ li_sCount li - blkIndent st < 4
  /\ exists p,
       li_start li <= p <= li_max li
       /\ (forall i, li_start li <= i < p -> char_at (src st) i = Some "-"%char)
       /\ char_at (src st) p <> Some "-"%char
       /\ marker_count <= p - li_start li
       /\ (forall i, p <= i < li_max li -> isSpace (charCodeAt (src st) i) = true).

(** A line is a candidate when it is not a non-empty line indented less than
    the block, and its end offset is not on a marker (it is on the line feed
    or at the end of the text). *)
Definition candidate_line (st : StateBlock) (li : line_info) : Prop :=
  li_start li <= li_max li
  /\ char_at (src st) (li_max li) <> Some "-"%char
  /\ (li_start li <? li_max li) && (li_sCount li <? blkIndent st) = false.

(** The arrays of the state have an entry for every line below [n]. *)
Definition lines_indexed (st : StateBlock) (n : Z) : Prop :=
  n <= Z.of_nat (List.length (bMarks st))
  /\ n <= Z.of_nat (List.length (eMarks st))
  /\ n <= Z.of_nat (List.length (tShift st))
  /\ n <= Z.of_nat (List.length (sCount st)).

(** The text of line [l] between its start and end offsets is three dots. *)
Definition dots_line (st : StateBlock) (l : Z) : bool :=
  match read_line st l with
  | Some li => String.eqb (slice (src st) (li_start li) (li_max li)) "..."
  | None => false
  end.

(** Line [l] is examined as content: it neither stops the scan nor closes
    the block. *)
Definition content_line (st : StateBlock) (marker_count : Z) (l : Z) : bool :=
  match read_line st l with
  | Some li =>
      match fst (examine st marker_count li) with
      | Content => true
      | _ => false
      end
  | None => false
  end.

(** Line [l] is a valid closing fence for an opening run of [marker_count]. *)
Definition closing_line (st : StateBlock) (marker_count : Z) (l : Z) : bool :=
  match read_line st l with
  | Some li =>
      match fst (examine st marker_count li) with
      | Closing => true
      | _ => false
      end
  | None => false
  end.

(** *** Extraction *)

Definition is_string (o : option jsval) : bool :=
  match o with
  | Some (JStr _) => true
  | _ => false
  end.

Definition string_of (o : option jsval) : option string :=
  match o with
  | Some (JStr s) => Some s
  | _ => None
  end.

(** [m[key]] as a value: [undefined] when the key is missing. *)
Definition value_of (o : option jsval) : jsval :=
  match o with
  | Some v => v
  | None => JUndefined
  end.

(** The keys read with [readStr], in the order of the source. *)
Definition scalar_keys : list string :=
  ["title"; "subtitle"; "abstract"; "date"; "date-modified"; "doi"].

(** What [readStr] leaves of a mapping. *)
Definition read_step (m : list (string * jsval)) (key : string)
  : list (string * jsval) :=
  if is_string (lookup m key) then remove_key m key else m.

(** A key of the mapping [m] is consumed by the extraction when it is
    [author] or [authors], or one of the scalar keys holding a string. *)
Definition consumed (m : list (string * jsval)) (k : string) : bool :=
  String.eqb k "author" || String.eqb k "authors"
  || (existsb (String.eqb k) scalar_keys && is_string (lookup m k)).

(** The residual mapping, in the order of the original one. *)
Definition residual (m : list (string * jsval)) : list (string * jsval) :=
  filter (fun kv => negb (consumed m (fst kv))) m.

(** The value given to [parseAuthor]: [frontMatter.author || frontMatter.authors]. *)
Definition author_argument (m : list (string * jsval)) : jsval :=
  if truthy (value_of (lookup m "author")) then value_of (lookup m "author")
  else value_of (lookup m "authors").

(** The title block read from the mapping [m], given its authors. *)
Definition title_block_of (m : list (string * jsval)) (auths : list Author)
  : TitleBlock :=
  mkTitleBlock (string_of (lookup m "title")) (string_of (lookup m "subtitle"))
               (string_of (lookup m "abstract")) (string_of (lookup m "date"))
               (string_of (lookup m "date-modified")) (string_of (lookup m "doi"))
               (Some auths).

Definition key_if_set (o : option string) (k : string) : list string :=
  match o with
  | Some _ => [k]
  | None => []
  end.

(** The source keys of the populated fields of a title block; both author
    keys count as soon as there is one author. *)
Definition populated_keys (tb : TitleBlock) : list string :=
  key_if_set (title tb) "title" +++ key_if_set (subtitle tb) "subtitle"
  +++ key_if_set (abstract tb) "abstract" +++ key_if_set (date tb) "date"
  +++ key_if_set (modified tb) "date-modified" +++ key_if_set (doi tb) "doi"
  +++ match authors tb with
      | Some (_ :: _) => ["author"; "authors"]
      | _ => []
      end.

(** *** Affiliations *)

(** The strings one entry of [affiliations] stands for: itself when it is a
    string, its [name] when it is a mapping with a string [name]. *)
Definition entry_strings (e : jsval) : list string :=
  match e with
  | JStr s => [s]
  | JObj p =>
      match lookup p "name" with
      | Some (JStr n) => [n]
      | _ => []
      end
  | _ => []
  end.

(** The two-tier rule in the words of the specification. *)
Definition spec_affiliations (item : list (string * jsval)) : list string :=
  match lookup item "affiliation" with
  | Some (JStr s) => [s]
  | _ =>
      match lookup item "affiliations" with
      | Some v => flat_map entry_strings (as_array v)
      | None => []
      end
  end.

(** The two-tier rule with the tests of the source: a non-empty string under
    [affiliation], otherwise a truthy value under [affiliations]. *)
Definition truthy_affiliations (item : list (string * jsval)) : list string :=
  let rest :=
    let v := value_of (lookup item "affiliations") in
    if truthy v then flat_map entry_strings (as_array v) else [] in
  match lookup item "affiliation" with
  | Some (JStr s) => if String.eqb s EmptyString then rest else [s]
  | _ => rest
  end.

(** The entries of [affiliations] when it is a sequence. *)
Definition affiliation_entries (item : list (string * jsval)) : list jsval :=
  match lookup item "affiliations" with
  | Some (JArr l) => l
  | _ => []
  end.

Definition not_nullish (v : jsval) : Prop := v <> JNull /\ v <> JUndefined.

(** *** Example documents and tokens *)

(** The tokens the rule pushes on a document, scanned from line 0 to the
    last line. *)
Definition scan_tokens (doc : string) : list Token :=
  let st := newStateBlock doc in
  match frontMatter (Z.to_nat (Z.max 1 (lineMax st))) false st 0 (lineMax st) false with
  | Ret r => tokens (state_after r)
  | _ => []
  end.

(** A front matter that holds the single scalar [null]. *)
Definition doc_null : string :=
  "---" ++ nl ++ "null" ++ nl ++ "---" ++ nl.

(** The token of the first example. *)
Definition tok_foo : Token :=
  mkToken "front_matter" EmptyString 0 0 true true
          ("---" ++ nl ++ "title: Foo" ++ nl ++ "---") (Some (0, 18)) "title: Foo".

(** *** A block rule called inside a list item *)

(** The state the list rule of markdown-it leaves for the item that opens
    the text [- x--], a line [a] indented by two, and a line [b] at the
    margin: on line 0 the content starts after the bullet, and the block
    indent is 2. *)
Definition doc_item : string :=
  "- x--" ++ nl ++ "  a" ++ nl ++ "b".

Definition st_item : StateBlock :=
  mkState doc_item [0; 6; 10; 11] [5; 9; 11; 11] [2; 2; 0; 0] [2; 2; 0; 0]
          2 0 3 "list" 1 [].

(** *** Text helpers *)

(** The text without its first [n] characters. *)
Fixpoint drop_chars (n : nat) (s : string) : string :=
  match n, s with
  | O, _ => s
  | S n', EmptyString => EmptyString
  | S n', String _ s' => drop_chars n' s'
  end.

(** A run of [n] markers. *)
Fixpoint dashes (n : nat) : string :=
  match n with
  | O => EmptyString
  | S n' => String "-"%char (dashes n')
  end.

(** *** Authors *)

(** The author an item stands for when nothing raises: a string gives its
    name alone; a mapping gives its [name] (or the empty name), its
    affiliations and its [orcid]; another object-typed value (a sequence, a
    date) gives an author with the empty name; anything else gives none. *)
Definition author_of_item (v : jsval) : list Author :=
  match v with
  | JStr s => [mkAuthor s None None]
  | JObj item =>
      [mkAuthor (match lookup item "name" with
                 | Some (JStr n) => n
                 | _ => EmptyString
                 end)
                (Some (truthy_affiliations item))
                (string_of (lookup item "orcid"))]
  | JArr _ => [mkAuthor EmptyString (Some []) None]
  | JDate _ => [mkAuthor EmptyString (Some []) None]
  | _ => []
  end.

(** An item on which [parseAuthor] does not raise: it is not [null], and
    when it is a mapping its [affiliations] sequence has no [null] entry. *)
Definition safe_item (v : jsval) : Prop :=
  v <> JNull
  /\ forall item, v = JObj item ->
                  forall e, In e (affiliation_entries item) -> not_nullish e.

(** The number of affiliations of an author. *)
Definition affil_count (a : Author) : nat := List.length (affil_rows a).

(** ** The settings of the language server (configuration.ts)

    [DiagnosticLevel] and [DiagnosticOptions] are declared by the language
    service, outside these sources: the four levels are those the file
    names, and a level of the options may be [undefined].  The value a level
    has at run time, which [defaultSettings] copies into the settings, is a
    parameter.  The nested objects of [Settings] are flattened, the names
    following the paths; a setting that holds a level name is a value, as the
    host may put anything there. *)

Inductive DiagnosticLevel : Type :=
| DL_ignore
| DL_warning
| DL_error
| DL_hint.

Record DiagnosticOptions : Type := mkDiagnosticOptions {
  do_enabled : bool;
  validateFileLinks : option DiagnosticLevel;
  validateReferences : option DiagnosticLevel;
  validateFragmentLinks : option DiagnosticLevel;
  validateMarkdownFileLinkFragments : option DiagnosticLevel;
  validateUnusedLinkDefinitions : option DiagnosticLevel;
  validateDuplicateLinkDefinitions : option DiagnosticLevel;
  ignoreLinks : list string
}.

Record Settings : Type := mkSettings {
  workbench_colorTheme : string;
  quarto_path : string;
  quarto_mathjax_scale : number;
  quarto_mathjax_extensions : list string;
  markdown_server_log : string;
  markdown_preferredMdPathExtensionStyle : string;
  markdown_suggest_paths_enabled : bool;
  markdown_suggest_paths_includeWorkspaceHeaderCompletions : string;
  validate_enabled : bool;
  validate_referenceLinks_enabled : jsval;
  validate_fragmentLinks_enabled : jsval;
  validate_fileLinks_enabled : jsval;
  validate_fileLinks_markdownFragmentLinks : jsval;
  validate_ignoredLinks : list string;
  validate_unusedLinkDefinitions_enabled : jsval;
  validate_duplicateLinkDefinitions_enabled : jsval
}.

Definition kDefaultDiagnosticOptions : DiagnosticOptions :=
  mkDiagnosticOptions false (Some DL_ignore) (Some DL_ignore) (Some DL_ignore)
                      (Some DL_ignore) (Some DL_ignore) (Some DL_ignore) [].

Definition convertDiagnosticLevel (enabled : jsval) : option DiagnosticLevel :=
  if strict_eq_string enabled "error" then Some DL_error
  else if strict_eq_string enabled "warning" then Some DL_warning
  else if strict_eq_string enabled "ignore" then Some DL_ignore
  else if strict_eq_string enabled "hint" then Some DL_hint
  else Some DL_ignore.

(** [getDiagnosticsOptions], on what [configManager.getSettings()] returns;
    [None] stands for a falsy value. *)
Definition getDiagnosticsOptions (settings : option Settings) : DiagnosticOptions :=
  match settings with
  | None => kDefaultDiagnosticOptions
  | Some s =>
      let validateFragmentLinks_ :=
        convertDiagnosticLevel (validate_fragmentLinks_enabled s) in
      mkDiagnosticOptions
        (validate_enabled s)
        (convertDiagnosticLevel (validate_fileLinks_enabled s))
        (convertDiagnosticLevel (validate_referenceLinks_enabled s))
        (convertDiagnosticLevel (validate_fragmentLinks_enabled s))
        (if strict_eq_string (validate_fileLinks_markdownFragmentLinks s) "inherit"
         then validateFragmentLinks_
         else convertDiagnosticLevel (validate_fileLinks_markdownFragmentLinks s))
        (convertDiagnosticLevel (validate_unusedLinkDefinitions_enabled s))
        (convertDiagnosticLevel (validate_duplicateLinkDefinitions_enabled s))
        (validate_ignoredLinks s)
  end.

Section WithLevelValues.

(** The value of a level at run time. *)
Variable level_value : DiagnosticLevel -> string.

(** [o!] for a level of the default options, as a setting. *)
Definition level_setting (o : option DiagnosticLevel) : jsval :=
  match o with
  | Some l => JStr (level_value l)
  | None => JUndefined
  end.

Definition defaultSettings : Settings :=
  mkSettings "Dark+" EmptyString (Finite (1 # 1)) [] "off" "auto" true "never"
             (do_enabled kDefaultDiagnosticOptions)
             (level_setting (validateReferences kDefaultDiagnosticOptions))
             (level_setting (validateFragmentLinks kDefaultDiagnosticOptions))
             (level_setting (validateFileLinks kDefaultDiagnosticOptions))
             (JStr "inherit")
             []
             (level_setting (validateUnusedLinkDefinitions kDefaultDiagnosticOptions))
             (level_setting (validateDuplicateLinkDefinitions kDefaultDiagnosticOptions)).

End WithLevelValues.

(** The levels valued by their names. *)
Definition level_name (l : DiagnosticLevel) : string :=
  match l with
  | DL_ignore => "ignore"
  | DL_warning => "warning"
  | DL_error => "error"
  | DL_hint => "hint"
  end.

(** The same list item with a line of three markers, and with a line of
    three dots, at the margin below the first line. *)
Definition doc_item_fence : string :=
  "- x--" ++ nl ++ "---" ++ nl ++ "b".

Definition st_item_fence : StateBlock :=
  mkState doc_item_fence [0; 6; 10; 11] [5; 9; 11; 11] [2; 0; 0; 0] [2; 0; 0; 0]
          2 0 3 "list" 1 [].

Definition doc_item_dots : string :=
  "- x--" ++ nl ++ "..." ++ nl ++ "b".

Definition st_item_dots : StateBlock :=
  mkState doc_item_dots [0; 6; 10; 11] [5; 9; 11; 11] [2; 0; 0; 0] [2; 0; 0; 0]
          2 0 3 "list" 1 [].

(** A line is outdented when it is not empty and is indented less than the
    enclosing block: the test of the source before the fence tests. *)
Definition outdented (st : StateBlock) (li : line_info) : Prop :=
  li_start li < li_max li /\ li_sCount li < blkIndent st.

(** * Properties *)

(** ** Characters, runs of markers and runs of spaces *)

Lemma marker_len_1 : marker_len = 1.
Proof. reflexivity. Qed.

Lemma ascii_eqb_dash (c : ascii) :
  (Z.of_nat (nat_of_ascii c) =? 45) = Ascii.eqb c "-"%char.
Proof.
  destruct c as [[] [] [] [] [] [] [] []]; reflexivity.
Qed.

Lemma is_marker_code (s : string) (i : Z) :
  opt_Z_eqb marker_char (charCodeAt s i) = true <-> char_at s i = Some "-"%char.
Proof.
  change marker_char with (Some 45). unfold charCodeAt.
  destruct (char_at s i) as [c|]; unfold opt_Z_eqb.
  - rewrite Z.eqb_sym, ascii_eqb_dash, Ascii.eqb_eq.
    split; intro H; [now subst | now inversion H].
  - split; discriminate.
Qed.

Lemma marker_mismatch_false (s : string) (start pos : Z) :
  marker_mismatch s start pos = false <-> char_at s pos = Some "-"%char.
Proof.
  unfold marker_mismatch. rewrite marker_len_1, Z.rem_1_r.
  change (char_at marker_str 0) with (Some "-"%char).
  rewrite negb_false_iff.
  destruct (char_at s pos) as [c|]; unfold opt_ascii_eqb.
  - rewrite Ascii.eqb_eq. split; intro H; [now subst | now inversion H].
  - split; discriminate.
Qed.

(** The loop over the marker run stops at the first character that is not a
    marker, or one past [max]. *)
Lemma marker_run_spec (n : nat) (s : string) (start pos max : Z) :
  Z.to_nat (max + 1 - pos) = n ->
  let r := marker_run n s start pos max in
  pos <= fst r <= Z.max pos (max + 1)
  /\ (forall i, pos <= i < fst r -> char_at s i = Some "-"%char)
  /\ (snd r = true <-> fst r <= max)
  /\ (fst r <= max -> char_at s (fst r) <> Some "-"%char).
Proof.
  revert pos. induction n as [|n IH]; intros pos Hn; simpl.
  - repeat split; try lia; try discriminate.
  - destruct (pos <=? max) eqn:Hle.
    + apply Z.leb_le in Hle.
      destruct (marker_mismatch s start pos) eqn:Hm; simpl.
      * repeat split; try lia.
        intros _ Hc. apply (proj2 (marker_mismatch_false s start pos)) in Hc. congruence.
      * assert (Hn' : Z.to_nat (max + 1 - (pos + 1)) = n) by lia.
        specialize (IH (pos + 1) Hn'). simpl in IH.
        destruct IH as (Hb & Hall & Hbrk & Hstop).
        repeat split; try lia; try apply Hbrk; try assumption.
        intros i Hi. destruct (Z.eq_dec i pos) as [->|Hne].
        -- now apply (proj1 (marker_mismatch_false s start pos)) in Hm.
        -- apply Hall. lia.
    + apply Z.leb_gt in Hle. lia.
Qed.

Lemma scan_run_spec (s : string) (start max : Z) :
  let r := scan_run s start max in
  start + 1 <= fst r <= Z.max (start + 1) (max + 1)
  /\ (forall i, start + 1 <= i < fst r -> char_at s i = Some "-"%char)
  /\ (snd r = true <-> fst r <= max)
  /\ (fst r <= max -> char_at s (fst r) <> Some "-"%char).
Proof.
  unfold scan_run. apply marker_run_spec. f_equal. lia.
Qed.

Lemma skipSpaces_from_spec (n : nat) (s : string) (pos : Z) :
  Z.to_nat (Z.of_nat (String.length s) - pos) = n ->
  let q := skipSpaces_from n s pos in
  pos <= q
  /\ (forall i, pos <= i < q -> isSpace (charCodeAt s i) = true)
  /\ (q < Z.of_nat (String.length s) -> isSpace (charCodeAt s q) = false).
Proof.
  revert pos. induction n as [|n IH]; intros pos Hn; simpl.
  - repeat split; try lia.
  - destruct (pos <? Z.of_nat (String.length s)) eqn:Hlt.
    + apply Z.ltb_lt in Hlt.
      destruct (isSpace (charCodeAt s pos)) eqn:Hsp.
      * assert (Hn' : Z.to_nat (Z.of_nat (String.length s) - (pos + 1)) = n) by lia.
        specialize (IH (pos + 1) Hn'). simpl in IH.
        destruct IH as (Hb & Hall & Hstop).
        repeat split; try lia; try assumption.
        intros i Hi. destruct (Z.eq_dec i pos) as [->|Hne]; [assumption|].
        apply Hall. lia.
      * repeat split; try lia. intros _. assumption.
    + apply Z.ltb_ge in Hlt. lia.
Qed.

Lemma char_at_out_of_range (s : string) (i : Z) :
  Z.of_nat (String.length s) <= i -> char_at s i = None.
Proof.
  intros H. unfold char_at.
  destruct (i <? 0) eqn:Hi; [reflexivity|].
  apply Z.ltb_ge in Hi.
  assert (Hn : (String.length s <= Z.to_nat i)%nat) by lia.
  clear H Hi. revert Hn. generalize (Z.to_nat i). intros n.
  revert n. induction s as [|c s IH]; intros n Hn; simpl in *.
  - destruct n; reflexivity.
  - destruct n as [|n]; [lia|]. apply IH. lia.
Qed.

(** After the spaces that follow [pos], the scan is at or past [max] exactly
    when everything from [pos] to [max] is a space or a tab. *)
Lemma skipSpaces_reaches (st : StateBlock) (pos max : Z) :
  (skipSpaces st pos <? max) = false <->
  (forall i, pos <= i < max -> isSpace (charCodeAt (src st) i) = true).
Proof.
  unfold skipSpaces.
  destruct (skipSpaces_from_spec
              (Z.to_nat (Z.of_nat (String.length (src st)) - pos)) (src st) pos eq_refl)
    as (Hb & Hall & Hstop).
  set (q := skipSpaces_from _ _ _) in *.
  rewrite Z.ltb_ge. split.
  - intros Hq i Hi. apply Hall. lia.
  - intros Hsp. destruct (Z_lt_le_dec q max) as [Hlt|]; [exfalso|assumption].
    assert (Hq : isSpace (charCodeAt (src st) q) = true) by (apply Hsp; lia).
    destruct (Z_lt_le_dec q (Z.of_nat (String.length (src st)))) as [Hin|Hout].
    + rewrite (Hstop Hin) in Hq. discriminate.
    + unfold charCodeAt in Hq. rewrite (char_at_out_of_range _ _ Hout) in Hq.
      discriminate.
Qed.

(** ** The closing fence *)

Lemma run_end_unique (s : string) (start p1 p2 : Z) :
  start <= p1 -> start <= p2 ->
  (forall i, start <= i < p1 -> char_at s i = Some "-"%char) ->
  (forall i, start <= i < p2 -> char_at s i = Some "-"%char) ->
  char_at s p1 <> Some "-"%char -> char_at s p2 <> Some "-"%char ->
  p1 = p2.
Proof.
  intros H1 H2 A1 A2 N1 N2.
  destruct (Z.lt_trichotomy p1 p2) as [Hlt|[Heq|Hgt]]; [|assumption|].
  - exfalso. apply N1, A2. lia.
  - exfalso. apply N2, A1. lia.
Qed.

Lemma examine_closing_iff (st : StateBlock) (marker_count : Z) (li : line_info) :
  candidate_line st li ->
  (fst (examine st marker_count li) = Closing <-> closing_conditions st marker_count li)
  /\ (fst (examine st marker_count li) <> Closing ->
      fst (examine st marker_count li) = Content).
Proof.
  intros (Hle & Heol & Hns).
  unfold examine, closing_conditions. rewrite Hns.
  destruct (opt_Z_eqb marker_char (charCodeAt (src st) (li_start li))) eqn:Ha; simpl.
  2:{ split; [|reflexivity]. split; [discriminate|].
      intros (Hc & _). apply is_marker_code in Hc. congruence. }
  apply is_marker_code in Ha.
  destruct (li_sCount li - blkIndent st >=? 4) eqn:Hb; simpl.
  { split; [|reflexivity]. split; [discriminate|].
    intros (_ & Hlt & _). apply Z.geb_le in Hb. lia. }
  assert (Hb' : li_sCount li - blkIndent st < 4).
  { rewrite Z.geb_leb in Hb. apply Z.leb_gt in Hb. lia. }
  destruct (scan_run_spec (src st) (li_start li) (li_max li)) as (Hbnd & Hall & _ & Hstop).
  set (p := fst (scan_run (src st) (li_start li) (li_max li))) in *.
  assert (Hlt : li_start li < li_max li).
  { destruct (Z.eq_dec (li_start li) (li_max li)) as [E|]; [|lia].
    rewrite E in Ha. contradiction. }
  assert (Hall' : forall i, li_start li <= i < p -> char_at (src st) i = Some "-"%char).
  { intros i Hi. destruct (Z.eq_dec i (li_start li)) as [->|]; [assumption|].
    apply Hall. lia. }
  assert (Hp : p <= li_max li).
  { destruct (Z_le_gt_dec p (li_max li)); [assumption|].
    exfalso. apply Heol, Hall'. lia. }
  specialize (Hstop Hp).
  rewrite marker_len_1, Z.div_1_r, Z.rem_1_r, Z.sub_0_r.
  destruct (p - li_start li <? marker_count) eqn:Hc; simpl.
  { split; [|reflexivity]. split; [discriminate|].
    intros (_ & _ & p' & Hp' & Hrun & Hend & Hlen & _).
    assert (p' = p) by (apply (run_end_unique (src st) (li_start li)); auto; lia).
    subst p'. apply Z.ltb_lt in Hc. lia. }
  apply Z.ltb_ge in Hc.
  destruct (skipSpaces st p <? li_max li) eqn:Hd; simpl.
  - split; [|reflexivity]. split; [discriminate|].
    intros (_ & _ & p' & Hp' & Hrun & Hend & _ & Hsp).
    assert (p' = p) by (apply (run_end_unique (src st) (li_start li)); auto; lia).
    subst p'. apply skipSpaces_reaches in Hsp. congruence.
  - split; [|intros H; now elim H]. split; [|reflexivity].
    intros _. repeat split; try assumption.
    exists p. repeat split; try assumption; try lia.
    now apply skipSpaces_reaches.
Qed.

(** ** Reading the line arrays *)

Lemma arr_get_in_range (l : list Z) (i : Z) :
  0 <= i < Z.of_nat (List.length l) -> exists x, arr_get l i = Some x.
Proof.
  intros Hi. unfold arr_get.
  destruct (i <? 0) eqn:Hneg; [apply Z.ltb_lt in Hneg; lia|].
  destruct (nth_error l (Z.to_nat i)) as [x|] eqn:Hx; [now exists x|].
  apply nth_error_None in Hx. lia.
Qed.

Lemma read_line_indexed (st : StateBlock) (n l : Z) :
  lines_indexed st n -> 0 <= l < n -> exists li, read_line st l = Some li.
Proof.
  intros (Hb & He & Ht & Hs) Hl. unfold read_line.
  destruct (arr_get_in_range (bMarks st) l) as [b ->]; [lia|].
  destruct (arr_get_in_range (tShift st) l) as [t ->]; [lia|].
  destruct (arr_get_in_range (eMarks st) l) as [e ->]; [lia|].
  destruct (arr_get_in_range (sCount st) l) as [sc ->]; [lia|].
  eauto.
Qed.

Lemma lines_indexed_le (st : StateBlock) (n m : Z) :
  lines_indexed st n -> m <= n -> lines_indexed st m.
Proof. unfold lines_indexed. intros (?&?&?&?) ?. repeat split; lia. Qed.

(** ** The search for the end always stops *)

Lemma body_loop_total (fuel : nat) (st : StateBlock) (endLine marker_count : Z) :
  lines_indexed st endLine ->
  forall nextLine start max pos,
    0 <= nextLine + 1 ->
    (Z.to_nat (endLine - nextLine - 1) < fuel)%nat ->
    exists r, body_loop fuel st endLine marker_count nextLine start max pos = Ret r
              /\ nextLine + 1 <= end_nextLine r <= Z.max (nextLine + 1) endLine.
Proof.
  intros Hwf. induction fuel as [|fuel IH]; intros nextLine start max pos Hnn Hfuel.
  - lia.
  - simpl.
    destruct (nextLine + 1 >=? endLine) eqn:Hge.
    { eexists. split; [reflexivity|]. simpl. lia. }
    rewrite Z.geb_leb in Hge. apply Z.leb_gt in Hge.
    destruct (String.eqb (slice (src st) start max) "...").
    { eexists. split; [reflexivity|]. simpl. lia. }
    destruct (read_line_indexed st endLine (nextLine + 1) Hwf) as [li ->]; [lia|].
    destruct (examine st marker_count li) as [[| |] p].
    + eexists. split; [reflexivity|]. simpl. lia.
    + destruct (IH (nextLine + 1) (li_start li) (li_max li) (new_pos pos p))
        as (r & Hr & Hb); [lia|lia|].
      exists r. split; [exact Hr|]. lia.
    + eexists. split; [reflexivity|]. simpl. lia.
Qed.

Lemma opening_total (st : StateBlock) (startLine : Z) :
  lines_indexed st 1 ->
  exists o, opening st startLine = Ret o /\ (o <> None -> startLine = 0).
Proof.
  intros Hwf. unfold opening.
  destruct (negb (startLine =? 0)
            || negb (opt_Z_eqb marker_char (charCodeAt (src st) 0))) eqn:Hg.
  { exists None. split; [reflexivity|]. intros H; now elim H. }
  apply orb_false_iff in Hg. destruct Hg as (H0 & _).
  apply negb_false_iff, Z.eqb_eq in H0. subst startLine.
  destruct Hwf as (Hb & He & Ht & _).
  destruct (arr_get_in_range (bMarks st) 0) as [b ->]; [lia|].
  destruct (arr_get_in_range (tShift st) 0) as [t ->]; [lia|].
  destruct (arr_get_in_range (eMarks st) 0) as [e ->]; [lia|].
  destruct (scan_run (src st) (b + t) e) as [pos broke].
  destruct ((pos - (b + t)) / marker_len <? min_markers);
    eexists; (split; [reflexivity|]); intros; reflexivity.
Qed.

Lemma emit_restores (st : StateBlock) (startLine : Z) (sc : option Z) (r : scan_end) :
  lineMax (emit st startLine sc r) = lineMax st
  /\ parentType (emit st startLine sc r) = parentType st
  /\ line (emit st startLine sc r) = resume_line r.
Proof. repeat split. Qed.

(** C9. Every call of the rule returns.  When it reports no match, the parse
    state is the one it was given and the callback was not called; when it
    reports a match, the line bound and the parent type, which are narrowed
    while the token is pushed, have their former values on return. *)
Theorem C9_no_match_no_effect_and_bounds_restored
        (fuel : nat) (has_cb : bool) (st : StateBlock)
        (startLine endLine : Z) (silent : bool) :
  lines_indexed st (Z.max 1 endLine) ->
  Z.max 1 endLine <= Z.of_nat fuel ->
  exists r,
    frontMatter fuel has_cb st startLine endLine silent = Ret r
    /\ (matched r = false -> state_after r = st /\ cb_calls r = [])
    /\ (matched r = true ->
        lineMax (state_after r) = lineMax st
        /\ parentType (state_after r) = parentType st).
Proof.
  intros Hwf Hfuel. unfold frontMatter.
  destruct (opening_total st startLine) as (o & -> & Hstart).
  { apply (lines_indexed_le st (Z.max 1 endLine)); [assumption|lia]. }
  destruct o as [[[[[marker_count pos] start_content] start] max]|].
  2:{ eexists. split; [reflexivity|]. simpl. split; [auto|discriminate]. }
  assert (startLine = 0) by (apply Hstart; discriminate). subst startLine.
  destruct silent.
  { eexists. split; [reflexivity|]. simpl. split; [discriminate|auto]. }
  destruct (body_loop_total fuel st endLine marker_count) with
    (nextLine := 0) (start := start) (max := max) (pos := pos) as (r & -> & _).
  - apply (lines_indexed_le st (Z.max 1 endLine)); [assumption|lia].
  - lia.
  - lia.
  - eexists. split; [reflexivity|]. simpl. split; [discriminate|].
    intros _. split; reflexivity.
Qed.

(** ** Slices *)

Lemma get_out_of_range (s : string) (n : nat) :
  (String.length s <= n)%nat -> String.get n s = None.
Proof.
  revert n. induction s as [|c s IH]; intros n Hn; simpl in *.
  - destruct n; reflexivity.
  - destruct n as [|n]; [lia|]. apply IH. lia.
Qed.

Lemma char_at_some_lt (s : string) (i : Z) (c : ascii) :
  char_at s i = Some c -> 0 <= i < Z.of_nat (String.length s).
Proof.
  intros H. destruct (Z_lt_le_dec i 0) as [Hneg|Hpos].
  - unfold char_at in H. apply Z.ltb_lt in Hneg. rewrite Hneg in H. discriminate.
  - destruct (Z_lt_le_dec i (Z.of_nat (String.length s))) as [|Hout]; [lia|].
    rewrite (char_at_out_of_range _ _ Hout) in H. discriminate.
Qed.

(** The character at index [k] of a slice is the character of the text at
    the normalised start plus [k]. *)
Lemma slice_get (s : string) (a b : Z) (k : nat) (c : ascii) :
  String.get k (slice s a b) = Some c ->
  char_at s (clamp_index (Z.of_nat (String.length s)) a + Z.of_nat k) = Some c.
Proof.
  unfold slice. set (len := Z.of_nat (String.length s)).
  set (from := clamp_index len a). set (m := Z.to_nat (clamp_index len b - from)).
  intros H.
  assert (Hfrom : 0 <= from).
  { unfold from, clamp_index, len.
    destruct (a <? 0) eqn:Ha; [lia|]. apply Z.ltb_ge in Ha. lia. }
  destruct (Nat.lt_ge_cases k m) as [Hlt|Hge].
  - rewrite (substring_correct1 s (Z.to_nat from) m k Hlt) in H.
    unfold char_at.
    destruct (from + Z.of_nat k <? 0) eqn:Hneg; [apply Z.ltb_lt in Hneg; lia|].
    replace (Z.to_nat (from + Z.of_nat k)) with (k + Z.to_nat from)%nat by lia.
    exact H.
  - rewrite (substring_correct2 s (Z.to_nat from) m k Hge) in H. discriminate.
Qed.

Lemma dots_not_marker (s : string) (a b : Z) :
  slice s a b = "..." -> opt_Z_eqb marker_char (charCodeAt s a) = false.
Proof.
  intros H.
  destruct (opt_Z_eqb marker_char (charCodeAt s a)) eqn:Hm; [|reflexivity].
  apply is_marker_code in Hm.
  assert (H0 : String.get 0 (slice s a b) = Some "."%char) by (rewrite H; reflexivity).
  apply slice_get in H0.
  destruct (char_at_some_lt _ _ _ Hm) as (Ha & _).
  unfold clamp_index in H0.
  destruct (a <? 0) eqn:Hneg; [apply Z.ltb_lt in Hneg; lia|].
  destruct (char_at_some_lt _ _ _ H0) as (_ & Hlt).
  replace (Z.min a (Z.of_nat (String.length s)) + Z.of_nat 0) with a in H0 by lia.
  congruence.
Qed.

(** The line of a valid opening fence is not a line of three dots. *)
Lemma opening_not_dots (st : StateBlock) (mc pos start max : Z) (sc : option Z) :
  opening st 0 = Ret (Some (mc, pos, sc, start, max)) ->
  String.eqb (slice (src st) start max) "..." = false.
Proof.
  unfold opening.
  destruct (negb (0 =? 0) || negb (opt_Z_eqb marker_char (charCodeAt (src st) 0)));
    [discriminate|].
  destruct (arr_get (bMarks st) 0) as [b|]; [|discriminate].
  destruct (arr_get (tShift st) 0) as [t|]; [|discriminate].
  destruct (arr_get (eMarks st) 0) as [e|]; [|discriminate].
  destruct (scan_run_spec (src st) (b + t) e) as (_ & Hall & _ & _).
  destruct (scan_run (src st) (b + t) e) as [p broke]. simpl in Hall.
  rewrite marker_len_1, Z.div_1_r.
  destruct (p - (b + t) <? min_markers) eqn:Hc; [discriminate|].
  apply Z.ltb_ge in Hc. unfold min_markers in Hc.
  intros H.
  assert (Hs : start = b + t) by congruence.
  assert (He : max = e) by congruence.
  clear H. subst start max.
  apply String.eqb_neq. intros Hd.
  assert (H1 : String.get 1 (slice (src st) (b + t) e) = Some "."%char)
    by (rewrite Hd; reflexivity).
  apply slice_get in H1.
  assert (Hm : char_at (src st) (b + t + 1) = Some "-"%char) by (apply Hall; lia).
  destruct (char_at_some_lt _ _ _ Hm) as (Ha & _).
  destruct (char_at_some_lt _ _ _ H1) as (_ & Hlt).
  unfold clamp_index in H1, Hlt.
  destruct (b + t <? 0) eqn:Hneg.
  - apply Z.ltb_lt in Hneg. lia.
  - replace (Z.min (b + t) (Z.of_nat (String.length (src st))) + Z.of_nat 1)
      with (b + t + 1) in H1 by lia.
    congruence.
Qed.

(** ** Blocks that nothing closes *)

Lemma content_line_inv (st : StateBlock) (mc l : Z) :
  content_line st mc l = true ->
  exists li p, read_line st l = Some li /\ examine st mc li = (Content, p).
Proof.
  unfold content_line. destruct (read_line st l) as [li|]; [|discriminate].
  destruct (examine st mc li) as [v p] eqn:Hex.
  destruct v; simpl; try discriminate.
  intros _. exists li, p. split; [reflexivity|exact Hex].
Qed.

Lemma body_loop_runs_to_bound (fuel : nat) (st : StateBlock) (endLine mc : Z) :
  (forall l, 1 <= l < endLine -> content_line st mc l = true /\ dots_line st l = false) ->
  forall nextLine start max pos,
    0 <= nextLine < endLine ->
    (Z.to_nat (endLine - nextLine - 1) < fuel)%nat ->
    String.eqb (slice (src st) start max) "..." = false ->
    exists s m p, body_loop fuel st endLine mc nextLine start max pos
                  = Ret (mkEnd endLine s m p false).
Proof.
  intros Hlines. induction fuel as [|fuel IH]; intros nextLine start max pos Hn Hfuel Hd.
  - lia.
  - cbn [body_loop].
    destruct (nextLine + 1 >=? endLine) eqn:Hge.
    { rewrite Z.geb_leb in Hge. apply Z.leb_le in Hge.
      exists start, max, pos. do 2 f_equal. lia. }
    rewrite Z.geb_leb in Hge. apply Z.leb_gt in Hge.
    rewrite Hd.
    destruct (Hlines (nextLine + 1)) as (Hc & Hnd); [lia|].
    destruct (content_line_inv _ _ _ Hc) as (li & p & Hread & Hex).
    rewrite Hread, Hex.
    apply IH; [lia|lia|].
    unfold dots_line in Hnd. rewrite Hread in Hnd. exact Hnd.
Qed.

(** A fence that is found lies strictly below the bound. *)
Lemma body_loop_found_below_bound (fuel : nat) (st : StateBlock) (endLine mc : Z) :
  forall nextLine start max pos r,
    body_loop fuel st endLine mc nextLine start max pos = Ret r ->
    end_auto_closed r = true ->
    end_nextLine r < endLine.
Proof.
  induction fuel as [|f IH]; intros n0 s0 m0 p0 r; [discriminate|].
  cbn [body_loop].
  destruct (n0 + 1 >=? endLine) eqn:Hge.
  { intros H Hac; inversion H; subst; discriminate. }
  rewrite Z.geb_leb in Hge. apply Z.leb_gt in Hge.
  destruct (String.eqb (slice (src st) s0 m0) "...").
  { intros H Hac; inversion H; subst; discriminate. }
  destruct (read_line st (n0 + 1)) as [li|]; [|discriminate].
  destruct (examine st mc li) as [[| |] p].
  - intros H Hac; inversion H; subst; discriminate.
  - apply IH.
  - intros H _; inversion H; subst. simpl. lia.
Qed.

(** C6 (amended). For every buffer with a valid opening fence at line 0, the
    rule returns a match whatever the lines below are: the search for the end
    stops.  When no line before the bound stops or closes the block, and no
    line is a line of three dots, the block is closed at the bound: the
    parser resumes at [endLine], every available line being consumed. *)
Theorem C6_unclosed_block_ends_at_bound
        (fuel : nat) (has_cb : bool) (st : StateBlock) (endLine : Z)
        (mc pos start max : Z) (sc : option Z) :
  lines_indexed st endLine ->
  1 <= endLine <= Z.of_nat fuel ->
  opening st 0 = Ret (Some (mc, pos, sc, start, max)) ->
  exists r,
    frontMatter fuel has_cb st 0 endLine false = Ret r
    /\ matched r = true
    /\ 1 <= line (state_after r) <= endLine
    /\ ((forall l, 1 <= l < endLine ->
           content_line st mc l = true /\ dots_line st l = false) ->
        line (state_after r) = endLine).
Proof.
  intros Hwf Hfuel Hopen. unfold frontMatter. rewrite Hopen.
  destruct (body_loop_total fuel st endLine mc Hwf 0 start max pos)
    as (r & Hr & Hb); [lia|lia|].
  rewrite Hr. eexists. split; [reflexivity|]. split; [reflexivity|].
  cbn [state_after]. destruct (emit_restores st 0 sc r) as (_ & _ & ->).
  split.
  - unfold resume_line. destruct (end_auto_closed r) eqn:Hac; [|lia].
    pose proof (body_loop_found_below_bound _ _ _ _ _ _ _ _ _ Hr Hac). lia.
  - intros Hlines.
    destruct (body_loop_runs_to_bound fuel st endLine mc Hlines 0 start max pos)
      as (s & m & p & Hr'); [lia|lia|apply (opening_not_dots _ _ _ _ _ _ Hopen)|].
    rewrite Hr in Hr'. inversion Hr'; subst. unfold resume_line. simpl. lia.
Qed.

Lemma C6_witness :
  exists r,
    frontMatter 3 false st_unclosed 0 3 false = Ret r
    /\ matched r = true
    /\ line (state_after r) = 3.
Proof.
  destruct (C6_unclosed_block_ends_at_bound 3 false st_unclosed 3 3 3 0 3 (Some 4))
    as (r & Hr & Hm & _ & Hline).
  - unfold lines_indexed. simpl. lia.
  - simpl. lia.
  - reflexivity.
  - exists r. split; [exact Hr|]. split; [exact Hm|].
    apply Hline. intros l Hl.
    assert (Hcases : l = 1 \/ l = 2) by lia.
    destruct Hcases as [->| ->]; split; reflexivity.
Defined.

(** C6 as stated fails: the buffer below has a valid opening fence and no
    line that is a valid closing fence before the bound 4, and the block ends
    after line 1, the line of three dots; the parser resumes at line 2. *)
Lemma C6_counterexample :
  opening st_dots 0 = Ret (Some (3, 3, Some 4, 0, 3))
  /\ closing_line st_dots 3 1 = false
  /\ closing_line st_dots 3 2 = false
  /\ closing_line st_dots 3 3 = false
  /\ exists r, frontMatter 4 false st_dots 0 4 false = Ret r
               /\ line (state_after r) = 2
               /\ line (state_after r) <> 4.
Proof.
  repeat split; try reflexivity.
  eexists. split; [reflexivity|]. split; [reflexivity|]. discriminate.
Qed.

(** ** The rule on the example documents *)

Lemma C9_witness :
  exists r,
    frontMatter 5 true st_foo 0 5 false = Ret r
    /\ (matched r = false -> state_after r = st_foo /\ cb_calls r = [])
    /\ (matched r = true ->
        lineMax (state_after r) = lineMax st_foo
        /\ parentType (state_after r) = parentType st_foo).
Proof.
  apply (C9_no_match_no_effect_and_bounds_restored 5 true st_foo 0 5 false).
  - unfold lines_indexed. simpl. lia.
  - simpl. lia.
Defined.

(** ** Mappings *)

Lemma lookup_remove_key_ne (m : list (string * jsval)) (k k' : string) :
  k <> k' -> lookup (remove_key m k) k' = lookup m k'.
Proof.
  intros Hne. induction m as [|[a v] m IH]; simpl; [reflexivity|].
  destruct (String.eqb_spec a k) as [->|Hak]; simpl.
  - apply String.eqb_neq in Hne. rewrite Hne. exact IH.
  - destruct (String.eqb a k'); [reflexivity|exact IH].
Qed.

Lemma lookup_read_step_ne (m : list (string * jsval)) (k k' : string) :
  k <> k' -> lookup (read_step m k) k' = lookup m k'.
Proof.
  intros Hne. unfold read_step.
  destruct (is_string (lookup m k)); [now apply lookup_remove_key_ne|reflexivity].
Qed.

Lemma filter_twice {A : Type} (f g : A -> bool) (l : list A) :
  filter f (filter g l) = filter (fun x => g x && f x) l.
Proof.
  induction l as [|x l IH]; simpl; [reflexivity|].
  destruct (g x); simpl; [destruct (f x)|]; now rewrite IH.
Qed.

Lemma lookup_filter_none (P : string * jsval -> bool) (m : list (string * jsval))
      (k : string) :
  (forall v, P (k, v) = false) -> lookup (filter P m) k = None.
Proof.
  intros HP. induction m as [|[a v] m IH]; simpl; [reflexivity|].
  destruct (P (a, v)) eqn:Hp; [|exact IH].
  simpl. destruct (String.eqb_spec a k) as [->|]; [|exact IH].
  rewrite HP in Hp. discriminate.
Qed.

Lemma existsb_key (f : string -> bool) (k : string) (ks : list string) :
  existsb (fun k' => String.eqb k k' && f k') ks = existsb (String.eqb k) ks && f k.
Proof.
  induction ks as [|a ks IH]; simpl; [reflexivity|].
  rewrite IH. destruct (String.eqb_spec k a) as [->|]; simpl; [|reflexivity].
  destruct (f a); simpl; [reflexivity|].
  now rewrite andb_false_r.
Qed.

(** Reading a list of distinct keys one after the other filters the mapping
    once: a pair goes when its key is one of them and holds a string. *)
Lemma read_steps_filter (ks : list string) :
  NoDup ks ->
  forall (m0 : list (string * jsval)) (P : string * jsval -> bool),
    (forall k, In k ks -> lookup (filter P m0) k = lookup m0 k) ->
    fold_left read_step ks (filter P m0)
    = filter (fun kv => P kv && negb (existsb (String.eqb (fst kv)) ks
                                      && is_string (lookup m0 (fst kv)))) m0.
Proof.
  induction ks as [|k ks IH]; intros Hnd m0 P Hl; simpl.
  - apply filter_ext. intros kv. now rewrite andb_true_r.
  - inversion Hnd as [|? ? Hnotin Hnd']; subst.
    set (P' := fun kv : string * jsval =>
                 P kv && negb (String.eqb (fst kv) k && is_string (lookup m0 k))).
    assert (Hstep : read_step (filter P m0) k = filter P' m0).
    { unfold read_step. rewrite (Hl k (or_introl eq_refl)).
      destruct (is_string (lookup m0 k)).
      - unfold remove_key. rewrite filter_twice. apply filter_ext.
        intros kv. unfold P'. now rewrite andb_true_r.
      - apply filter_ext. intros kv. unfold P'.
        now rewrite andb_false_r, andb_true_r. }
    rewrite Hstep, (IH Hnd' m0 P').
    + apply filter_ext. intros [a v]. unfold P'. simpl.
      destruct (String.eqb_spec a k) as [->|]; simpl.
      * destruct (P (k, v)), (is_string (lookup m0 k)),
                 (existsb (String.eqb k) ks); reflexivity.
      * now rewrite andb_true_r.
    + intros k' Hin. rewrite <- Hstep.
      rewrite lookup_read_step_ne.
      * apply Hl. now right.
      * intros ->. contradiction.
Qed.

Lemma filter_all {A : Type} (l : list A) : filter (fun _ => true) l = l.
Proof. induction l as [|x l IH]; simpl; [reflexivity|now rewrite IH]. Qed.

Lemma scalar_keys_NoDup : NoDup scalar_keys.
Proof.
  unfold scalar_keys.
  repeat (constructor;
          [simpl; intros H;
           repeat (destruct H as [H|H]; [discriminate H|]); exact H|]).
  constructor.
Qed.

Lemma lookup_read_steps (ks : list string) (m : list (string * jsval)) (k' : string) :
  ~ In k' ks -> lookup (fold_left read_step ks m) k' = lookup m k'.
Proof.
  revert m. induction ks as [|k ks IH]; intros m Hn; simpl; [reflexivity|].
  rewrite IH.
  - apply lookup_read_step_ne. intros ->. apply Hn. now left.
  - intros H. apply Hn. now right.
Qed.

(** ** Extraction of the title block *)

Lemma readStr_obj (m : list (string * jsval)) (k : string) :
  readStr (JObj m) k = Ok (string_of (lookup m k), JObj (read_step m k)).
Proof.
  unfold readStr, read_step, get_prop, delete_prop.
  destruct (lookup m k) as [[]|]; reflexivity.
Qed.

Lemma residual_read (m : list (string * jsval)) :
  remove_key (remove_key (fold_left read_step scalar_keys m) "author") "authors"
  = residual m.
Proof.
  rewrite <- (filter_all m) at 1.
  rewrite (read_steps_filter scalar_keys scalar_keys_NoDup m (fun _ => true)).
  2:{ intros k _. now rewrite filter_all. }
  unfold remove_key. rewrite !filter_twice.
  apply filter_ext. intros [a v]. unfold consumed. simpl fst.
  destruct (String.eqb a "author"), (String.eqb a "authors"),
           (existsb (String.eqb a) scalar_keys && is_string (lookup m a));
    reflexivity.
Qed.

(** The extraction on a mapping, in closed form. *)
Lemma extractTitleBlock_obj (m : list (string * jsval)) :
  extractTitleBlock (JObj m)
  = (auths <- parseAuthor (author_argument m) ;;
     Ok (title_block_of m auths, JObj (residual m))).
Proof.
  unfold extractTitleBlock.
  rewrite readStr_obj. cbn [bind].
  rewrite readStr_obj. cbn [bind].
  rewrite readStr_obj. cbn [bind].
  rewrite readStr_obj. cbn [bind].
  rewrite readStr_obj. cbn [bind].
  rewrite readStr_obj. cbn [bind].
  change (read_step (read_step (read_step (read_step (read_step (read_step m
            "title") "subtitle") "abstract") "date") "date-modified") "doi")
    with (fold_left read_step scalar_keys m).
  set (m6 := fold_left read_step scalar_keys m).
  assert (Ha : lookup m6 "author" = lookup m "author").
  { apply lookup_read_steps. simpl. intros H.
    repeat (destruct H as [H|H]; [discriminate H|]). exact H. }
  assert (Hb : lookup m6 "authors" = lookup m "authors").
  { apply lookup_read_steps. simpl. intros H.
    repeat (destruct H as [H|H]; [discriminate H|]). exact H. }
  assert (Harg : (au <- get_prop (JObj m6) "author" ;;
                  js_or au (get_prop (JObj m6) "authors"))
                 = Ok (author_argument m)).
  { unfold author_argument, get_prop, js_or. rewrite Ha, Hb.
    destruct (lookup m "author") as [a|]; cbn [bind value_of].
    - destruct (truthy a); [reflexivity|].
      destruct (lookup m "authors"); reflexivity.
    - cbn [truthy]. destruct (lookup m "authors"); reflexivity. }
  unfold title_block_of.
  rewrite !lookup_read_step_ne by (apply String.eqb_neq; reflexivity).
  destruct (get_prop (JObj m6) "author") as [au|e] eqn:Hau; cbn [bind] in *.
  2:{ discriminate Harg. }
  rewrite Harg. cbn [bind].
  destruct (parseAuthor (author_argument m)) as [auths|e]; cbn [bind]; [|reflexivity].
  unfold delete_prop. cbn [bind].
  unfold m6. rewrite residual_read. reflexivity.
Qed.

Lemma residual_keys (m : list (string * jsval)) (k : string) :
  In k (keys (residual m)) <-> In k (keys m) /\ consumed m k = false.
Proof.
  unfold keys, residual. rewrite !in_map_iff. split.
  - intros ([a v] & Hk & Hin). simpl in Hk. subst a.
    apply filter_In in Hin. destruct Hin as (Hin & Hc). simpl in Hc.
    split; [exists (k, v); auto|]. now apply negb_true_iff.
  - intros (([a v] & Hk & Hin) & Hc). simpl in Hk. subst a.
    exists (k, v). split; [reflexivity|].
    apply filter_In. split; [assumption|]. simpl. now rewrite Hc.
Qed.

(** C2 (amended). For every parsed mapping, the extraction hands the value
    of [author || authors] to the author normaliser and, unless that raises,
    fills each scalar field with the string its key holds and leaves as
    residual mapping the pairs whose key is not consumed.  The consumed keys
    are the scalar keys that hold a string, and [author] and [authors], which
    are removed whatever they hold.  So every key of the mapping is either a
    residual key or a consumed key, never both. *)
Theorem C2_residual_and_consumed_keys_partition (m : list (string * jsval)) :
  extractTitleBlock (JObj m)
  = (auths <- parseAuthor (author_argument m) ;;
     Ok (title_block_of m auths, JObj (residual m)))
  /\ (forall k, In k (keys m) <->
                In k (keys (residual m)) \/ (In k (keys m) /\ consumed m k = true))
  /\ (forall k, ~ (In k (keys (residual m)) /\ consumed m k = true))
  /\ (forall k, In k scalar_keys ->
                (consumed m k = true <-> exists s, lookup m k = Some (JStr s))).
Proof.
  split; [apply extractTitleBlock_obj|]. split; [|split].
  - intros k. rewrite residual_keys. split.
    + intros Hin. destruct (consumed m k); [right|left]; auto.
    + intros [(Hin & _)|(Hin & _)]; exact Hin.
  - intros k (Hin & Hc). apply residual_keys in Hin. destruct Hin as (_ & Hf).
    congruence.
  - intros k Hin. unfold consumed.
    assert (Hex : existsb (String.eqb k) scalar_keys = true).
    { apply existsb_exists. exists k. split; [assumption|apply String.eqb_refl]. }
    rewrite Hex.
    assert (Hna : String.eqb k "author" = false /\ String.eqb k "authors" = false).
    { simpl in Hin.
      repeat (destruct Hin as [<-|Hin]; [split; reflexivity|]). contradiction. }
    destruct Hna as (-> & ->). simpl.
    destruct (lookup m k) as [[]|]; simpl; split;
      try discriminate; try (intros (s0 & Hs); discriminate Hs); eauto.
Qed.

(** C2 as stated fails: on the mapping [{author: 42, authors: "B"}] no field
    of the title block is populated and the residual mapping is empty, so
    both keys are lost. *)
Lemma C2_counterexample :
  let m := [("author", JNum (Finite (42 # 1))); ("authors", JStr "B")] in
  exists tb r,
    extractTitleBlock (JObj m) = Ok (tb, JObj r)
    /\ In "author" (keys m)
    /\ ~ In "author" (populated_keys tb +++ keys r)
    /\ In "authors" (keys m)
    /\ ~ In "authors" (populated_keys tb +++ keys r).
Proof.
  simpl. eexists. eexists. split; [reflexivity|].
  simpl. repeat split; auto.
Qed.

(** C3 (amended). For every parsed mapping in which both [author] and
    [authors] are present, the extraction removes both keys, and the value
    handed to the author normaliser is the one of [author] when it is truthy,
    the one of [authors] otherwise. *)
Theorem C3_author_key_first_both_removed
        (m : list (string * jsval)) (a b : jsval) :
  lookup m "author" = Some a ->
  lookup m "authors" = Some b ->
  extractTitleBlock (JObj m)
  = (auths <- parseAuthor (if truthy a then a else b) ;;
     Ok (title_block_of m auths, JObj (residual m)))
  /\ lookup (residual m) "author" = None
  /\ lookup (residual m) "authors" = None.
Proof.
  intros Ha Hb. rewrite extractTitleBlock_obj.
  unfold author_argument. rewrite Ha, Hb. cbn [value_of].
  split; [reflexivity|].
  split; apply lookup_filter_none; intros v; unfold consumed; reflexivity.
Qed.

Lemma C3_witness :
  let m := [("author", JStr "A"); ("authors", JStr "B")] in
  extractTitleBlock (JObj m)
  = (auths <- parseAuthor (if truthy (JStr "A") then JStr "A" else JStr "B") ;;
     Ok (title_block_of m auths, JObj (residual m)))
  /\ lookup (residual m) "author" = None
  /\ lookup (residual m) "authors" = None.
Proof.
  exact (C3_author_key_first_both_removed
           [("author", JStr "A"); ("authors", JStr "B")] (JStr "A") (JStr "B")
           eq_refl eq_refl).
Defined.

(** C3 as stated fails: on [{author: "A", authors: "B"}] the authors of the
    title block are not the ones the value of [authors] gives. *)
Lemma C3_counterexample :
  let m := [("author", JStr "A"); ("authors", JStr "B")] in
  ~ (exists auths tb fm,
        parseAuthor (JStr "B") = Ok auths
        /\ extractTitleBlock (JObj m) = Ok (tb, fm)
        /\ authors tb = Some auths).
Proof.
  simpl. intros (auths & tb & fm & Hp & He & Ha).
  vm_compute in Hp. vm_compute in He.
  inversion Hp; subst. inversion He; subst. simpl in Ha. discriminate Ha.
Qed.

(** ** Authors and affiliations *)

Lemma affil_entry_not_nullish (e : jsval) :
  not_nullish e -> affil_entry e = Ok (entry_strings e).
Proof.
  intros (Hn & Hu). destruct e; try reflexivity; try contradiction.
  unfold affil_entry, get_prop, entry_strings. cbn [typeof String.eqb].
  destruct (lookup props "name") as [[]|]; reflexivity.
Qed.

Lemma affil_entries_not_nullish (l : list jsval) :
  (forall e, In e l -> not_nullish e) ->
  affil_entries l = Ok (flat_map entry_strings l).
Proof.
  induction l as [|e l IH]; intros H; simpl; [reflexivity|].
  rewrite (affil_entry_not_nullish e) by (apply H; now left).
  cbn [bind]. rewrite IH by (intros x Hx; apply H; now right).
  reflexivity.
Qed.

Lemma str_prop_obj (m : list (string * jsval)) (k : string) (d : option string) :
  str_prop (JObj m) k d
  = Ok (match lookup m k with
        | Some (JStr s) => Some s
        | _ => d
        end).
Proof.
  unfold str_prop, get_prop.
  destruct (lookup m k) as [[]|]; reflexivity.
Qed.

(** An entry that is [null] makes the normaliser raise: reading [name] of
    [null] throws. *)
Example affiliations_null_entry_raises :
  parseAuthor (JObj [("name", JStr "A"); ("affiliations", JArr [JNull])])
  = Throw TypeError.
Proof. reflexivity. Qed.

(** C7 (amended). For every mapping-shaped author item whose [affiliations]
    sequence has no [null] entry: when [affiliation] holds a non-empty string,
    the affiliation list is that single string; otherwise, when
    [affiliations] holds a truthy value, it is coerced to a sequence and
    each entry gives itself when it is a string, its [name] when it is a
    mapping with a string [name], and nothing otherwise; otherwise the list
    is empty.  Nothing is raised. *)
Theorem C7_affiliations_two_tier_rule (item : list (string * jsval)) :
  (forall e, In e (affiliation_entries item) -> not_nullish e) ->
  author_affiliations (JObj item) = Ok (truthy_affiliations item).
Proof.
  intros Hent.
  assert (Hrest :
    (a <- get_prop (JObj item) "affiliations" ;;
     if truthy a then affil_entries (as_array a) else Ok [])
    = Ok (let v := value_of (lookup item "affiliations") in
          if truthy v then flat_map entry_strings (as_array v) else [])).
  { unfold get_prop, affiliation_entries in *.
    destruct (lookup item "affiliations") as [v|]; cbn [bind value_of]; [|reflexivity].
    destruct (truthy v) eqn:Ht; [|reflexivity].
    apply affil_entries_not_nullish.
    destruct v; simpl in *; try discriminate; try exact Hent;
      intros e [<-|[]]; split; discriminate. }
  unfold author_affiliations, truthy_affiliations.
  rewrite str_prop_obj.
  destruct (lookup item "affiliation") as [v|]; cbn [bind].
  - destruct v; cbn [opt_truthy bind]; try exact Hrest.
    destruct (String.eqb s EmptyString); cbn [negb]; [exact Hrest|reflexivity].
  - cbn [opt_truthy]. exact Hrest.
Qed.

Lemma C7_witness :
  author_affiliations
    (JObj [("name", JStr "A");
           ("affiliations",
            JArr [JStr "X"; JNum (Finite (1 # 1)); JObj [("name", JStr "Y")]])])
  = Ok (truthy_affiliations
          [("name", JStr "A");
           ("affiliations",
            JArr [JStr "X"; JNum (Finite (1 # 1)); JObj [("name", JStr "Y")]])]).
Proof.
  apply C7_affiliations_two_tier_rule.
  simpl. intros e [<-|[<-|[<-|[]]]]; split; discriminate.
Defined.

(** C7 as stated fails: with an empty string under [affiliation] the list is
    taken from [affiliations], not made of that single string. *)
Lemma C7_counterexample :
  let item := [("affiliation", JStr EmptyString); ("affiliations", JStr "X")] in
  spec_affiliations item = [EmptyString]
  /\ author_affiliations (JObj item) = Ok ["X"]
  /\ author_affiliations (JObj item) <> Ok (spec_affiliations item).
Proof.
  simpl. repeat split. discriminate.
Qed.

(** C8 (amended). The author normaliser maps the scalar [s] to an author
    with name [s], no affiliation list and no orcid, and the mapping
    [{name: s}] to an author with name [s], an empty affiliation list and no
    orcid; the two give the same rows, hence the same rendered title. *)
Theorem C8_scalar_and_mapping_author (s : string) :
  parseAuthor (JStr s) = Ok [mkAuthor s None None]
  /\ parseAuthor (JObj [("name", JStr s)]) = Ok [mkAuthor s (Some []) None]
  /\ name_rows (mkAuthor s None None) = name_rows (mkAuthor s (Some []) None)
  /\ affil_rows (mkAuthor s None None) = affil_rows (mkAuthor s (Some []) None)
  /\ forall t st a d m i,
       renderTitle (mkTitleBlock t st a d m i (Some [mkAuthor s None None]))
       = renderTitle (mkTitleBlock t st a d m i (Some [mkAuthor s (Some []) None])).
Proof.
  repeat split.
Qed.

(** C8 as stated fails: for the input "A" the two records differ, the scalar
    one has no affiliation list where the other has an empty one. *)
Lemma C8_counterexample :
  parseAuthor (JStr "A") <> parseAuthor (JObj [("name", JStr "A")])
  /\ parseAuthor (JStr "A") = Ok [mkAuthor "A" None None]
  /\ affil (mkAuthor "A" None None) <> Some [].
Proof.
  repeat split; discriminate.
Qed.

(** ** Rendering *)

(** A parse failure is turned into [undefined], for which the renderer
    returns the empty string. *)
Lemma parse_failure_renders_empty
      (yaml_load : string -> result jsval) (yaml_dump : jsval -> string)
      (toks : list Token) (idx : nat) (token : Token) (e : exn) :
  nth_error toks idx = Some token ->
  yaml_load (replace_closing_fence (tok_markup token)) = Throw e ->
  parseFrontMatterStr yaml_load (tok_markup token) = JUndefined
  /\ renderFrontMatter yaml_load yaml_dump toks idx = Ok EmptyString.
Proof.
  intros Htok Hload. unfold renderFrontMatter, parseFrontMatterStr.
  rewrite Htok, Hload. split; reflexivity.
Qed.

(** A sequence at the top level is not turned into [undefined] either: it is
    rendered as if it were a mapping. *)
Example sequence_front_matter_is_rendered :
  parseFrontMatterStr yaml_load_sample ("---" ++ nl ++ "- a" ++ nl ++ "---")
  = JArr [JStr "a"]
  /\ renderFrontMatter yaml_load_sample yaml_dump_sample
       [mkToken "front_matter" EmptyString 0 0 true true
                ("---" ++ nl ++ "- a" ++ nl ++ "---") (Some (0, 11)) "- a"] 0
     = Ok (nl ++ "<pre>" ++ nl ++ "- a" ++ nl ++ nl ++ "</pre>").
Proof. split; reflexivity. Qed.

(** C1 (the code at the failing input). When the structured-data parser
    returns [null], a value whose top level is not a mapping, the parse hands
    it on as it is and the renderer raises a [TypeError]: [typeof null] is
    ["object"], and reading [title] of [null] throws. *)
Theorem C1_null_front_matter_raises
        (yaml_load : string -> result jsval) (yaml_dump : jsval -> string)
        (toks : list Token) (idx : nat) (token : Token) :
  nth_error toks idx = Some token ->
  yaml_load (replace_closing_fence (tok_markup token)) = Ok JNull ->
  parseFrontMatterStr yaml_load (tok_markup token) = JNull
  /\ renderFrontMatter yaml_load yaml_dump toks idx = Throw TypeError.
Proof.
  intros Htok Hload. unfold renderFrontMatter, parseFrontMatterStr.
  rewrite Htok, Hload. split; reflexivity.
Qed.

Lemma C1_witness :
  parseFrontMatterStr yaml_load_sample
    ("---" ++ nl ++ "null" ++ nl ++ "---") = JNull
  /\ renderFrontMatter yaml_load_sample yaml_dump_sample (scan_tokens doc_null) 0
     = Throw TypeError.
Proof.
  exact (C1_null_front_matter_raises yaml_load_sample yaml_dump_sample
           (scan_tokens doc_null) 0
           (mkToken "front_matter" EmptyString 0 0 true true
                    ("---" ++ nl ++ "null" ++ nl ++ "---") (Some (0, 12)) "null")
           eq_refl eq_refl).
Defined.

(** C4 (amended). On the document made of three dashes, [title: Foo], three
    dashes, an empty line and [Body], the rule matches and consumes lines 0
    to 2: the parser resumes at line 3.  The token's inner content is
    [title: Foo] without a line feed, its markup runs from the opening fence
    to the end of the closing one, and, the parser giving the mapping
    [{title: "Foo"}] for the markup without its closing fence, the rendered
    title is the heading alone, with no metadata block, followed by the dump
    of the empty residual mapping. *)
Theorem C4_title_foo_document
        (yaml_load : string -> result jsval) (yaml_dump : jsval -> string)
        (fuel : nat) (has_cb : bool) :
  (2 <= fuel)%nat ->
  yaml_load ("---" ++ nl ++ "title: Foo" ++ nl) = Ok (JObj [("title", JStr "Foo")]) ->
  exists r token tb,
    frontMatter fuel has_cb st_foo 0 (lineMax st_foo) false = Ret r
    /\ matched r = true
    /\ line (state_after r) = 3
    /\ tokens (state_after r) = [token]
    /\ tok_meta token = "title: Foo"
    /\ tok_markup token = "---" ++ nl ++ "title: Foo" ++ nl ++ "---"
    /\ extractTitleBlock (parseFrontMatterStr yaml_load (tok_markup token))
       = Ok (tb, JObj [])
    /\ renderTitle tb = "<h1>Foo</h1>"
    /\ metadataBlocks tb = []
    /\ renderFrontMatter yaml_load yaml_dump (tokens (state_after r)) 0
       = Ok ("<h1>Foo</h1>" ++ nl ++ "<pre>" ++ nl
             ++ yaml_dump (JObj []) ++ nl ++ "</pre>").
Proof.
  intros Hfuel Hload.
  destruct fuel as [|[|fuel]]; [lia|lia|].
  assert (Hscan : frontMatter (S (S fuel)) has_cb st_foo 0 (lineMax st_foo) false
                  = Ret (mkResult true (set_line (push st_foo tok_foo) 3)
                                  (if has_cb then ["title: Foo"] else []))).
  { destruct has_cb; reflexivity. }
  assert (Hparse : parseFrontMatterStr yaml_load (tok_markup tok_foo)
                   = JObj [("title", JStr "Foo")]).
  { unfold parseFrontMatterStr.
    change (replace_closing_fence (tok_markup tok_foo))
      with ("---" ++ nl ++ "title: Foo" ++ nl).
    now rewrite Hload. }
  exists (mkResult true (set_line (push st_foo tok_foo) 3)
                   (if has_cb then ["title: Foo"] else [])).
  exists tok_foo.
  exists (mkTitleBlock (Some "Foo") None None None None None (Some [])).
  split; [exact Hscan|].
  split; [reflexivity|]. split; [reflexivity|]. split; [reflexivity|].
  split; [reflexivity|]. split; [reflexivity|].
  split; [rewrite Hparse; reflexivity|].
  split; [reflexivity|]. split; [reflexivity|].
  unfold renderFrontMatter.
  change (nth_error (tokens (state_after
            (mkResult true (set_line (push st_foo tok_foo) 3)
                      (if has_cb then ["title: Foo"] else [])))) 0)
    with (Some tok_foo).
  cbv beta iota zeta. rewrite Hparse. reflexivity.
Qed.

Lemma C4_witness :
  exists r token tb,
    frontMatter 5 true st_foo 0 (lineMax st_foo) false = Ret r
    /\ matched r = true
    /\ line (state_after r) = 3
    /\ tokens (state_after r) = [token]
    /\ tok_meta token = "title: Foo"
    /\ tok_markup token = "---" ++ nl ++ "title: Foo" ++ nl ++ "---"
    /\ extractTitleBlock (parseFrontMatterStr yaml_load_sample (tok_markup token))
       = Ok (tb, JObj [])
    /\ renderTitle tb = "<h1>Foo</h1>"
    /\ metadataBlocks tb = []
    /\ renderFrontMatter yaml_load_sample yaml_dump_sample (tokens (state_after r)) 0
       = Ok ("<h1>Foo</h1>" ++ nl ++ "<pre>" ++ nl
             ++ yaml_dump_sample (JObj []) ++ nl ++ "</pre>").
Proof.
  apply (C4_title_foo_document yaml_load_sample yaml_dump_sample 5%nat true).
  - lia.
  - reflexivity.
Defined.

(** C4 as stated fails: the token's map is [0, 18], not the lines [0, 2], and
    its inner content has no final line feed. *)
Lemma C4_counterexample :
  exists r token,
    frontMatter 5 true st_foo 0 (lineMax st_foo) false = Ret r
    /\ tokens (state_after r) = [token]
    /\ tok_map token = Some (0, 18)
    /\ tok_map token <> Some (0, 2)
    /\ tok_meta token = "title: Foo"
    /\ tok_meta token <> "title: Foo" ++ nl.
Proof.
  eexists. eexists. split; [reflexivity|]. split; [reflexivity|].
  repeat split; discriminate.
Qed.

(** * Further properties of the plugin *)

(** ** The opening fence *)

(** In validation mode the rule only looks at the opening fence.  It reports
    a match exactly when it is called on line 0, the text begins with the
    marker, and the two characters after the start of the content of line 0
    are markers that lie on that line; the character at the start of the
    content itself and whatever follows the run are not looked at.  The
    state is left as it was and the callback is not called. *)
Theorem X1_validation_mode_opening_fence
        (fuel : nat) (has_cb : bool) (st : StateBlock)
        (startLine endLine : Z) (li : line_info) :
  read_line st 0 = Some li ->
  exists v,
    frontMatter fuel has_cb st startLine endLine true = Ret (mkResult v st [])
    /\ (v = true <->
        startLine = 0
        /\ char_at (src st) 0 = Some "-"%char
        /\ li_start li + 2 <= li_max li
        /\ char_at (src st) (li_start li + 1) = Some "-"%char
        /\ char_at (src st) (li_start li + 2) = Some "-"%char).
Proof.
  intros Hread. unfold frontMatter, opening.
  unfold read_line in Hread.
  destruct (arr_get (bMarks st) 0) as [b|] eqn:Hb; [|discriminate].
  destruct (arr_get (tShift st) 0) as [t|] eqn:Ht; [|discriminate].
  destruct (arr_get (eMarks st) 0) as [e|] eqn:He; [|discriminate].
  destruct (arr_get (sCount st) 0) as [sc|]; [|discriminate].
  inversion Hread; subst li; clear Hread. cbn [li_start li_max].
  destruct (startLine =? 0) eqn:H0.
  2:{ cbn [negb orb]. exists false. split; [reflexivity|].
      apply Z.eqb_neq in H0. split; [discriminate|]. intros (E & _). contradiction. }
  apply Z.eqb_eq in H0. subst startLine. cbn [negb orb]. rewrite Hb, Ht, He.
  destruct (opt_Z_eqb marker_char (charCodeAt (src st) 0)) eqn:Hc; cbn [negb].
  2:{ exists false. split; [reflexivity|]. split; [discriminate|].
      intros (_ & Hm & _). apply is_marker_code in Hm. congruence. }
  apply is_marker_code in Hc.
  destruct (scan_run_spec (src st) (b + t) e) as (Hbnd & Hall & _ & Hstop).
  destruct (scan_run (src st) (b + t) e) as [p broke]. cbn [fst snd] in *.
  rewrite marker_len_1, Z.div_1_r. unfold min_markers.
  destruct (p - (b + t) <? 3) eqn:Hlt.
  - apply Z.ltb_lt in Hlt. exists false. split; [reflexivity|].
    split; [discriminate|]. intros (_ & _ & Hle & H1 & H2). exfalso.
    assert (Hp : p <= e) by lia.
    apply (Hstop Hp).
    assert (Hcases : p = b + t + 1 \/ p = b + t + 2) by lia.
    destruct Hcases as [-> | ->]; assumption.
  - apply Z.ltb_ge in Hlt. exists true. split; [reflexivity|].
    split; [|reflexivity]. intros _.
    repeat split; try assumption; try lia; apply Hall; lia.
Qed.

Lemma X1_witness :
  exists v,
    frontMatter 0 true st_item 0 3 true = Ret (mkResult v st_item [])
    /\ (v = true <->
        0 = 0
        /\ char_at (src st_item) 0 = Some "-"%char
        /\ li_start (mkLine 2 5 2) + 2 <= li_max (mkLine 2 5 2)
        /\ char_at (src st_item) (li_start (mkLine 2 5 2) + 1) = Some "-"%char
        /\ char_at (src st_item) (li_start (mkLine 2 5 2) + 2) = Some "-"%char).
Proof.
  exact (X1_validation_mode_opening_fence 0 true st_item 0 3 (mkLine 2 5 2) eq_refl).
Defined.

(** ** The first line that ends the block *)

(** The scan goes over the lines in order: when the lines before [k] are
    content and none is a line of three dots, the loop reaches line [k] with
    the offsets of the line before it. *)
Lemma body_loop_reaches (st : StateBlock) (endLine mc k : Z) :
  (forall l, 1 <= l < k -> content_line st mc l = true /\ dots_line st l = false) ->
  k < endLine ->
  forall (fuel : nat) (nextLine start max pos : Z),
    0 <= nextLine < k ->
    String.eqb (slice (src st) start max) "..." = false ->
    (Z.to_nat (k - nextLine) <= fuel)%nat ->
    forall li v p,
      read_line st k = Some li ->
      examine st mc li = (v, p) ->
      v <> Content ->
      exists pos0,
        body_loop fuel st endLine mc nextLine start max pos
        = Ret (mkEnd k (li_start li) (li_max li) (new_pos pos0 p)
                     (match v with Closing => true | _ => false end)).
Proof.
  intros Hlines Hk fuel.
  induction fuel as [|fuel IH]; intros nextLine start max pos Hn Hd Hfuel li v p Hread Hex Hv.
  - lia.
  - cbn [body_loop].
    assert (Hge : (nextLine + 1 >=? endLine) = false).
    { rewrite Z.geb_leb. apply Z.leb_gt. lia. }
    rewrite Hge, Hd.
    destruct (Z.eq_dec (nextLine + 1) k) as [E|NE].
    + rewrite E, Hread, Hex.
      destruct v; [| contradiction |]; eexists; reflexivity.
    + destruct (Hlines (nextLine + 1)) as (Hc & Hnd); [lia|].
      destruct (content_line_inv _ _ _ Hc) as (li' & p' & Hread' & Hex').
      rewrite Hread', Hex'.
      apply (IH (nextLine + 1) (li_start li') (li_max li') (new_pos pos p'))
        with (p := p); try assumption; try lia.
      unfold dots_line in Hnd. rewrite Hread' in Hnd. exact Hnd.
Qed.

Lemma closing_position (st : StateBlock) (mc : Z) (li : line_info) :
  fst (examine st mc li) = Closing ->
  snd (examine st mc li)
  = Some (skipSpaces st (fst (scan_run (src st) (li_start li) (li_max li))))
  /\ li_max li <= skipSpaces st (fst (scan_run (src st) (li_start li) (li_max li))).
Proof.
  unfold examine.
  destruct ((li_start li <? li_max li) && (li_sCount li <? blkIndent st));
    [discriminate|].
  destruct (negb (opt_Z_eqb marker_char (charCodeAt (src st) (li_start li))));
    [discriminate|].
  destruct (li_sCount li - blkIndent st >=? 4); [discriminate|].
  rewrite marker_len_1, Z.div_1_r, Z.rem_1_r, Z.sub_0_r.
  destruct (fst (scan_run (src st) (li_start li) (li_max li)) - li_start li <? mc);
    [discriminate|].
  destruct (skipSpaces st (fst (scan_run (src st) (li_start li) (li_max li)))
            <? li_max li) eqn:Hlt; [discriminate|].
  intros _. apply Z.ltb_ge in Hlt. split; [reflexivity|exact Hlt].
Qed.

(** The block is closed by the first closing fence: when line [k], below the
    bound, is a valid closing fence and the lines before it are content, none
    being a line of three dots, the parser resumes on the line after the
    fence, the pushed token's inner content stops one character before the
    start of the fence line, and its markup and its map run from the start of
    the text to the position the scan of the fence ends on: the one reached
    after the run of markers of line [k] and the spaces that follow it, which
    is at or past the end offset of that line. *)
Theorem X2_first_closing_fence_closes_block
        (fuel : nat) (has_cb : bool) (st : StateBlock) (endLine k : Z)
        (mc pos start max : Z) (sc : option Z) (li : line_info) :
  opening st 0 = Ret (Some (mc, pos, sc, start, max)) ->
  1 <= k < endLine ->
  k <= Z.of_nat fuel ->
  (forall l, 1 <= l < k -> content_line st mc l = true /\ dots_line st l = false) ->
  read_line st k = Some li ->
  fst (examine st mc li) = Closing ->
  let q := skipSpaces st (fst (scan_run (src st) (li_start li) (li_max li))) in
  exists r token,
    frontMatter fuel has_cb st 0 endLine false = Ret r
    /\ matched r = true
    /\ line (state_after r) = k + 1
    /\ tokens (state_after r) = tokens st +++ [token]
    /\ tok_meta token = slice_from (src st) sc (li_start li - 1)
    /\ tok_markup token = slice (src st) 0 q
    /\ tok_map token = Some (0, q)
    /\ li_max li <= q.
Proof.
  intros Hopen Hk Hfuel Hlines Hread Hv q.
  destruct (closing_position st mc li Hv) as (Hq & Hmax).
  destruct (examine st mc li) as [v p] eqn:Hex. cbn [fst snd] in Hv, Hq. subst v p.
  destruct (body_loop_reaches st endLine mc k Hlines (proj2 Hk) fuel 0 start max pos)
    with (li := li) (v := Closing) (p := Some q) as (pos0 & Hloop);
    try assumption; try lia; try discriminate.
  { apply (opening_not_dots _ _ _ _ _ _ Hopen). }
  unfold frontMatter. rewrite Hopen, Hloop.
  eexists. eexists. split; [reflexivity|].
  cbn. repeat split; try reflexivity. exact Hmax.
Qed.

Lemma X2_witness :
  exists r token,
    frontMatter 5 true st_foo 0 5 false = Ret r
    /\ matched r = true
    /\ line (state_after r) = 2 + 1
    /\ tokens (state_after r) = tokens st_foo +++ [token]
    /\ tok_meta token = slice_from (src st_foo) (Some 4) (li_start (mkLine 15 18 0) - 1)
    /\ tok_markup token
       = slice (src st_foo) 0
               (skipSpaces st_foo (fst (scan_run (src st_foo) 15 18)))
    /\ tok_map token
       = Some (0, skipSpaces st_foo (fst (scan_run (src st_foo) 15 18)))
    /\ li_max (mkLine 15 18 0)
       <= skipSpaces st_foo (fst (scan_run (src st_foo) 15 18)).
Proof.
  apply (X2_first_closing_fence_closes_block 5 true st_foo 5 2 3 3 0 3 (Some 4)
                                             (mkLine 15 18 0)).
  - reflexivity.
  - lia.
  - simpl. lia.
  - intros l Hl. assert (l = 1) as -> by lia. split; reflexivity.
  - reflexivity.
  - reflexivity.
Defined.

(** A non-empty line indented less than the enclosing block ends the block
    without being part of it: when line [k] is such a line and the lines
    before it are content, the parser resumes on line [k] itself. *)
Theorem X3_negative_indent_line_is_not_consumed
        (fuel : nat) (has_cb : bool) (st : StateBlock) (endLine k : Z)
        (mc pos start max : Z) (sc : option Z) (li : line_info) :
  opening st 0 = Ret (Some (mc, pos, sc, start, max)) ->
  1 <= k < endLine ->
  k <= Z.of_nat fuel ->
  (forall l, 1 <= l < k -> content_line st mc l = true /\ dots_line st l = false) ->
  read_line st k = Some li ->
  li_start li < li_max li ->
  li_sCount li < blkIndent st ->
  exists r token,
    frontMatter fuel has_cb st 0 endLine false = Ret r
    /\ matched r = true
    /\ line (state_after r) = k
    /\ tokens (state_after r) = tokens st +++ [token]
    /\ tok_meta token = slice_from (src st) sc (li_start li - 1).
Proof.
  intros Hopen Hk Hfuel Hlines Hread Hne Hind.
  assert (Hex : examine st mc li = (Stop, None)).
  { unfold examine.
    apply Z.ltb_lt in Hne. apply Z.ltb_lt in Hind. now rewrite Hne, Hind. }
  destruct (body_loop_reaches st endLine mc k Hlines (proj2 Hk) fuel 0 start max pos)
    with (li := li) (v := Stop) (p := @None Z) as (pos' & Hloop);
    try assumption; try lia; try discriminate.
  { apply (opening_not_dots _ _ _ _ _ _ Hopen). }
  unfold frontMatter. rewrite Hopen, Hloop.
  eexists. eexists. split; [reflexivity|].
  cbn. repeat split; try reflexivity.
  unfold resume_line. cbn. lia.
Qed.

Lemma X3_witness :
  exists r token,
    frontMatter 3 false st_item 0 3 false = Ret r
    /\ matched r = true
    /\ line (state_after r) = 2
    /\ tokens (state_after r) = tokens st_item +++ [token]
    /\ tok_meta token = slice_from (src st_item) (Some 6) (li_start (mkLine 10 11 0) - 1).
Proof.
  apply (X3_negative_indent_line_is_not_consumed 3 false st_item 3 2 3 5 2 5 (Some 6)
                                                 (mkLine 10 11 0)).
  - reflexivity.
  - lia.
  - simpl. lia.
  - intros l Hl. assert (l = 1) as -> by lia. split; reflexivity.
  - reflexivity.
  - simpl. lia.
  - simpl. lia.
Defined.

(** ** What a match leaves behind *)

(** A call outside validation mode always returns, and when it reports a
    match it has pushed exactly one token after those already there: a hidden
    block token of type [front_matter], of nesting 0, at the current level.
    The callback, when there is one, is called once, with the token's inner
    content.  The text, the line arrays, the block indent and the level are
    untouched, and the parser resumes strictly after line 0 and not beyond
    the bound. *)
Theorem X4_match_pushes_one_token
        (fuel : nat) (has_cb : bool) (st : StateBlock) (startLine endLine : Z) :
  lines_indexed st (Z.max 1 endLine) ->
  Z.max 1 endLine <= Z.of_nat fuel ->
  exists r,
    frontMatter fuel has_cb st startLine endLine false = Ret r
    /\ (matched r = true ->
        startLine = 0
        /\ (exists token,
               tokens (state_after r) = tokens st +++ [token]
               /\ tok_type token = "front_matter"
               /\ tok_nesting token = 0
               /\ tok_level token = level st
               /\ tok_hidden token = true
               /\ tok_block token = true
               /\ cb_calls r = (if has_cb then [tok_meta token] else []))
        /\ src (state_after r) = src st
        /\ bMarks (state_after r) = bMarks st
        /\ eMarks (state_after r) = eMarks st
        /\ tShift (state_after r) = tShift st
        /\ sCount (state_after r) = sCount st
        /\ blkIndent (state_after r) = blkIndent st
        /\ level (state_after r) = level st
        /\ 0 < line (state_after r) <= Z.max 1 endLine).
Proof.
  intros Hwf Hfuel. unfold frontMatter.
  destruct (opening_total st startLine) as (o & -> & Hstart).
  { apply (lines_indexed_le st (Z.max 1 endLine)); [assumption|lia]. }
  destruct o as [[[[[mc pos] sc] start] max]|].
  2:{ eexists. split; [reflexivity|]. cbn. discriminate. }
  assert (startLine = 0) by (apply Hstart; discriminate). subst startLine.
  destruct (body_loop_total fuel st endLine mc) with
    (nextLine := 0) (start := start) (max := max) (pos := pos) as (r & Hr & Hb).
  - apply (lines_indexed_le st (Z.max 1 endLine)); [assumption|lia].
  - lia.
  - lia.
  - rewrite Hr. eexists. split; [reflexivity|]. cbn. intros _.
    split; [reflexivity|]. split.
    { eexists. repeat split; reflexivity. }
    repeat split; try reflexivity.
    + unfold resume_line. destruct (end_auto_closed r); lia.
    + unfold resume_line. destruct (end_auto_closed r) eqn:Hac; [|lia].
      pose proof (body_loop_found_below_bound _ _ _ _ _ _ _ _ _ Hr Hac). lia.
Qed.

Lemma X4_witness :
  exists r,
    frontMatter 5 true st_foo 0 5 false = Ret r
    /\ (matched r = true ->
        0 = 0
        /\ (exists token,
               tokens (state_after r) = tokens st_foo +++ [token]
               /\ tok_type token = "front_matter"
               /\ tok_nesting token = 0
               /\ tok_level token = level st_foo
               /\ tok_hidden token = true
               /\ tok_block token = true
               /\ cb_calls r = (if true then [tok_meta token] else []))
        /\ src (state_after r) = src st_foo
        /\ bMarks (state_after r) = bMarks st_foo
        /\ eMarks (state_after r) = eMarks st_foo
        /\ tShift (state_after r) = tShift st_foo
        /\ sCount (state_after r) = sCount st_foo
        /\ blkIndent (state_after r) = blkIndent st_foo
        /\ level (state_after r) = level st_foo
        /\ 0 < line (state_after r) <= Z.max 1 5).
Proof.
  apply (X4_match_pushes_one_token 5 true st_foo 0 5).
  - unfold lines_indexed. simpl. lia.
  - simpl. lia.
Defined.

(** ** Cutting the closing fence off the markup *)

Lemma all_regex_space_app (a b : string) :
  all_regex_space (a ++ b) = all_regex_space a && all_regex_space b.
Proof.
  induction a as [|c a IH]; simpl; [reflexivity|].
  now rewrite IH, andb_assoc.
Qed.

Lemma substring_drop (n : nat) (s : string) :
  substring n (String.length s - n) s = drop_chars n s.
Proof.
  revert s. induction n as [|n IH]; intros s.
  - rewrite Nat.sub_0_r. simpl.
    induction s as [|c s IHs]; simpl; [reflexivity|now rewrite IHs].
  - destruct s as [|c s]; simpl; [reflexivity|apply IH].
Qed.

Lemma drop_chars_app (n : nat) (u v : string) :
  (n <= String.length u)%nat -> drop_chars n (u ++ v) = drop_chars n u ++ v.
Proof.
  revert u. induction n as [|n IH]; intros u Hn; simpl; [reflexivity|].
  destruct u as [|c u]; simpl in *; [lia|]. apply IH. lia.
Qed.

Lemma string_app_assoc (a b c : string) : (a ++ b) ++ c = a ++ b ++ c.
Proof. induction a as [|x a IH]; simpl; [reflexivity|now rewrite IH]. Qed.

Lemma string_app_length (a b : string) :
  String.length (a ++ b) = (String.length a + String.length b)%nat.
Proof. induction a as [|x a IH]; simpl; [reflexivity|now rewrite IH]. Qed.

Lemma string_app_empty_r (a : string) : a ++ EmptyString = a.
Proof. induction a as [|x a IH]; simpl; [reflexivity|now rewrite IH]. Qed.

(** A text with a marker at index 3 or later does not start a match. *)
Lemma no_match_before_fence (c : ascii) (s w : string) :
  all_regex_space
    (substring 3 (String.length (String c (s ++ "---" ++ w)) - 3)
               (String c (s ++ "---" ++ w))) = false.
Proof.
  rewrite substring_drop.
  change (String c (s ++ "---" ++ w)) with (String c s ++ "--" ++ String "-"%char w).
  rewrite <- string_app_assoc.
  rewrite drop_chars_app.
  - rewrite all_regex_space_app. simpl. now rewrite andb_false_r.
  - rewrite string_app_length. simpl. lia.
Qed.

Lemma replace_closing_fence_strips (s w : string) :
  all_regex_space w = true -> replace_closing_fence (s ++ "---" ++ w) = s.
Proof.
  intros Hw. induction s as [|c s IH].
  - change (EmptyString ++ "---" ++ w) with (String "-"%char ("--" ++ w)).
    cbn [replace_closing_fence]. rewrite substring_drop.
    change (drop_chars 3 (String "-"%char ("--" ++ w))) with w.
    rewrite Hw, andb_true_r.
    assert (Hp : String.prefix "---" (String "-"%char ("--" ++ w)) = true).
    { cbn [String.prefix append].
      destruct (ascii_dec "-" "-") as [_|N]; [|now elim N].
      destruct w; reflexivity. }
    now rewrite Hp.
  - change (String c s ++ "---" ++ w) with (String c (s ++ "---" ++ w)).
    cbn [replace_closing_fence].
    rewrite no_match_before_fence, andb_false_r. now rewrite IH.
Qed.

Lemma dashes_plus_three (k : nat) : dashes (k + 3) = dashes k ++ "---".
Proof. induction k as [|k IH]; simpl; [reflexivity|now rewrite IH]. Qed.

Lemma prefix_drop (p s : string) :
  String.prefix p s = true -> s = p ++ drop_chars (String.length p) s.
Proof.
  revert s. induction p as [|a p IH]; intros s H.
  - reflexivity.
  - destruct s as [|b s]; [discriminate H|].
    cbn [String.prefix] in H.
    destruct (ascii_dec a b) as [->|]; [|discriminate H].
    cbn [String.length drop_chars append]. f_equal. now apply IH.
Qed.

(** The markup loses a final closing fence: a text that ends with three
    markers and white space is cut back to what precedes them, whatever that
    is.  Only three markers go: of a longer final run the first markers
    stay at the end of the text that is parsed. *)
Theorem X5_closing_fence_is_cut (s : string) :
  (forall w, all_regex_space w = true -> replace_closing_fence (s ++ "---" ++ w) = s)
  /\ (forall n, (3 <= n)%nat ->
        replace_closing_fence (s ++ dashes n) = s ++ dashes (n - 3)).
Proof.
  split.
  - intros w Hw. now apply replace_closing_fence_strips.
  - intros n Hn.
    replace n with ((n - 3) + 3)%nat at 1 by lia.
    rewrite dashes_plus_three, <- string_app_assoc.
    rewrite <- (string_app_empty_r "---") at 1.
    now apply replace_closing_fence_strips.
Qed.

(** Nothing but a final closing fence is cut: the result is the text itself,
    or the text is the result followed by three markers and white space. *)
Theorem X6_only_a_final_fence_is_cut (s : string) :
  replace_closing_fence s = s
  \/ exists w, all_regex_space w = true
               /\ s = replace_closing_fence s ++ "---" ++ w.
Proof.
  induction s as [|c s IH]; [now left|].
  cbn [replace_closing_fence].
  destruct (String.prefix "---" (String c s)) eqn:Hp; cbn [andb].
  - destruct (all_regex_space
                (substring 3 (String.length (String c s) - 3) (String c s))) eqn:Hw.
    + right. rewrite substring_drop in Hw.
      exists (drop_chars 3 (String c s)). split; [exact Hw|].
      exact (prefix_drop "---" (String c s) Hp).
    + destruct IH as [IH|(w & Hw' & IH)].
      * left. now rewrite IH.
      * right. exists w. split; [exact Hw'|].
        change (String c (replace_closing_fence s) ++ "---" ++ w)
          with (String c (replace_closing_fence s ++ "---" ++ w)).
        f_equal. exact IH.
  - destruct IH as [IH|(w & Hw' & IH)].
    + left. now rewrite IH.
    + right. exists w. split; [exact Hw'|].
        change (String c (replace_closing_fence s) ++ "---" ++ w)
          with (String c (replace_closing_fence s ++ "---" ++ w)).
        f_equal. exact IH.
Qed.

(** ** What the renderer returns *)

(** For a token that exists, the result of the renderer is fixed by what the
    parser gives for the markup without its closing fence: a failure, or a
    value that is not object-typed ([undefined], a boolean, a number, a
    string), renders as the empty string; a mapping renders as the title
    block followed by the dump of the residual mapping between [<pre>] and
    [</pre>], the dump being there even when nothing is left, unless the
    author normaliser raises. *)
Theorem X7_renderer_by_parse_result
        (yaml_load : string -> result jsval) (yaml_dump : jsval -> string)
        (toks : list Token) (idx : nat) (token : Token) :
  nth_error toks idx = Some token ->
  (forall e, yaml_load (replace_closing_fence (tok_markup token)) = Throw e ->
             renderFrontMatter yaml_load yaml_dump toks idx = Ok EmptyString)
  /\ (forall v, yaml_load (replace_closing_fence (tok_markup token)) = Ok v ->
                String.eqb (typeof v) "object" = false ->
                renderFrontMatter yaml_load yaml_dump toks idx = Ok EmptyString)
  /\ (forall m, yaml_load (replace_closing_fence (tok_markup token)) = Ok (JObj m) ->
                renderFrontMatter yaml_load yaml_dump toks idx
                = (auths <- parseAuthor (author_argument m) ;;
                   Ok (renderTitle (title_block_of m auths) ++ nl ++ "<pre>" ++ nl
                       ++ yaml_dump (JObj (residual m)) ++ nl ++ "</pre>"))).
Proof.
  intros Htok. unfold renderFrontMatter, parseFrontMatterStr. rewrite Htok.
  split; [|split].
  - intros e ->. reflexivity.
  - intros v -> Hty. now rewrite Hty.
  - intros m ->. cbn [typeof]. rewrite String.eqb_refl.
    rewrite extractTitleBlock_obj.
    destruct (parseAuthor (author_argument m)); reflexivity.
Qed.

Lemma X7_witness :
  (forall e, yaml_load_sample (replace_closing_fence (tok_markup tok_foo)) = Throw e ->
             renderFrontMatter yaml_load_sample yaml_dump_sample [tok_foo] 0
             = Ok EmptyString)
  /\ (forall v, yaml_load_sample (replace_closing_fence (tok_markup tok_foo)) = Ok v ->
                String.eqb (typeof v) "object" = false ->
                renderFrontMatter yaml_load_sample yaml_dump_sample [tok_foo] 0
                = Ok EmptyString)
  /\ (forall m, yaml_load_sample (replace_closing_fence (tok_markup tok_foo))
                = Ok (JObj m) ->
                renderFrontMatter yaml_load_sample yaml_dump_sample [tok_foo] 0
                = (auths <- parseAuthor (author_argument m) ;;
                   Ok (renderTitle (title_block_of m auths) ++ nl ++ "<pre>" ++ nl
                       ++ yaml_dump_sample (JObj (residual m)) ++ nl ++ "</pre>"))).
Proof.
  exact (X7_renderer_by_parse_result yaml_load_sample yaml_dump_sample
           [tok_foo] 0 tok_foo eq_refl).
Defined.

(** ** The residual mapping *)

Lemma lookup_filter_key (P : string -> bool) (m : list (string * jsval)) (k : string) :
  lookup (filter (fun kv => P (fst kv)) m) k = if P k then lookup m k else None.
Proof.
  induction m as [|[a v] m IH]; simpl.
  - now destruct (P k).
  - destruct (P a) eqn:Hpa; simpl.
    + destruct (String.eqb_spec a k) as [->|]; [now rewrite Hpa|exact IH].
    + destruct (String.eqb_spec a k) as [->|]; [|exact IH].
      rewrite Hpa in *. exact IH.
Qed.

Lemma lookup_residual (m : list (string * jsval)) (k : string) :
  lookup (residual m) k = if consumed m k then None else lookup m k.
Proof.
  unfold residual.
  rewrite (lookup_filter_key (fun a => negb (consumed m a)) m k).
  now destruct (consumed m k).
Qed.

(** The extraction does not touch what it leaves: when the author
    normaliser does not raise, [extractTitleBlock] returns a mapping in which
    [author] and [authors] have no value, a scalar key that held a string has
    none either, and every other key, a scalar key that did not hold a string
    included, has the value it had. *)
Theorem X8_residual_keeps_values (m : list (string * jsval)) (auths : list Author) :
  parseAuthor (author_argument m) = Ok auths ->
  exists tb r,
    extractTitleBlock (JObj m) = Ok (tb, JObj r)
    /\ authors tb = Some auths
    /\ lookup r "author" = None
    /\ lookup r "authors" = None
    /\ (forall k s, In k scalar_keys -> lookup m k = Some (JStr s) ->
                    lookup r k = None)
    /\ (forall k, k <> "author" -> k <> "authors" ->
                  (In k scalar_keys -> is_string (lookup m k) = false) ->
                  lookup r k = lookup m k).
Proof.
  intros Hauth. exists (title_block_of m auths), (residual m).
  split; [rewrite extractTitleBlock_obj, Hauth; reflexivity|].
  split; [reflexivity|].
  split; [rewrite lookup_residual; reflexivity|].
  split; [rewrite lookup_residual; reflexivity|].
  split.
  - intros k s Hin Hk. rewrite lookup_residual. unfold consumed.
    assert (Hex : existsb (String.eqb k) scalar_keys = true).
    { apply existsb_exists. exists k. split; [assumption|apply String.eqb_refl]. }
    rewrite Hex, Hk. cbn [is_string]. now rewrite orb_true_r.
  - intros k Ha Hb Hsc. rewrite lookup_residual. unfold consumed.
    apply String.eqb_neq in Ha. apply String.eqb_neq in Hb. rewrite Ha, Hb.
    cbn [orb].
    destruct (existsb (String.eqb k) scalar_keys) eqn:Hex; [|reflexivity].
    apply existsb_exists in Hex. destruct Hex as (k' & Hin & Hk').
    apply String.eqb_eq in Hk'. subst k'. now rewrite (Hsc Hin).
Qed.

Lemma X8_witness :
  exists tb r,
    extractTitleBlock
      (JObj [("title", JStr "T"); ("date", JDate 0); ("author", JStr "A");
             ("keywords", JArr [JStr "k"])])
    = Ok (tb, JObj r)
    /\ authors tb = Some [mkAuthor "A" None None]
    /\ lookup r "author" = None
    /\ lookup r "authors" = None
    /\ (forall k s, In k scalar_keys ->
                    lookup [("title", JStr "T"); ("date", JDate 0); ("author", JStr "A");
                            ("keywords", JArr [JStr "k"])] k = Some (JStr s) ->
                    lookup r k = None)
    /\ (forall k, k <> "author" -> k <> "authors" ->
                  (In k scalar_keys ->
                   is_string (lookup [("title", JStr "T"); ("date", JDate 0);
                                      ("author", JStr "A");
                                      ("keywords", JArr [JStr "k"])] k) = false) ->
                  lookup r k
                  = lookup [("title", JStr "T"); ("date", JDate 0); ("author", JStr "A");
                            ("keywords", JArr [JStr "k"])] k).
Proof.
  exact (X8_residual_keeps_values
           [("title", JStr "T"); ("date", JDate 0); ("author", JStr "A");
            ("keywords", JArr [JStr "k"])]
           [mkAuthor "A" None None] eq_refl).
Defined.

(** ** The author normaliser *)

Lemma author_affiliations_obj (item : list (string * jsval)) :
  (forall e, In e (affiliation_entries item) -> not_nullish e) ->
  author_affiliations (JObj item) = Ok (truthy_affiliations item).
Proof.
  intros Hent.
  unfold author_affiliations, truthy_affiliations. rewrite str_prop_obj.
  assert (Hrest :
    (a <- get_prop (JObj item) "affiliations" ;;
     if truthy a then affil_entries (as_array a) else Ok [])
    = Ok (let v := value_of (lookup item "affiliations") in
          if truthy v then flat_map entry_strings (as_array v) else [])).
  { unfold get_prop, affiliation_entries in *.
    destruct (lookup item "affiliations") as [v|]; cbn [bind value_of]; [|reflexivity].
    destruct (truthy v) eqn:Ht; [|reflexivity].
    apply affil_entries_not_nullish.
    destruct v; simpl in *; try discriminate; try exact Hent;
      intros e [<-|[]]; split; discriminate. }
  destruct (lookup item "affiliation") as [v|]; cbn [bind].
  - destruct v; cbn [opt_truthy bind]; try exact Hrest.
    destruct (String.eqb s EmptyString); cbn [negb]; [exact Hrest|reflexivity].
  - cbn [opt_truthy]. exact Hrest.
Qed.

Lemma author_item_safe (v : jsval) :
  safe_item v -> author_item v = Ok (author_of_item v).
Proof.
  intros (Hnull & Hent).
  destruct v; try reflexivity; try contradiction.
  unfold author_item. cbn [typeof]. cbn [String.eqb Ascii.eqb Bool.eqb].
  rewrite author_affiliations_obj by (apply Hent; reflexivity).
  cbn [bind]. rewrite !str_prop_obj. cbn [bind author_of_item].
  destruct (lookup props "name") as [[]|];
    destruct (lookup props "orcid") as [[]|]; reflexivity.
Qed.

Lemma author_items_app (l1 l2 : list jsval) :
  author_items (l1 +++ l2)
  = (xs <- author_items l1 ;; ys <- author_items l2 ;; Ok (xs +++ ys)).
Proof.
  induction l1 as [|a l1 IH]; simpl.
  - destruct (author_items l2); reflexivity.
  - destruct (author_item a) as [xs|e]; cbn [bind]; [|reflexivity].
    rewrite IH.
    destruct (author_items l1) as [ys|e]; cbn [bind]; [|reflexivity].
    destruct (author_items l2) as [zs|e]; cbn [bind]; [|reflexivity].
    now rewrite app_assoc.
Qed.

Lemma author_items_safe (l : list jsval) :
  (forall v, In v l -> safe_item v) ->
  author_items l = Ok (flat_map author_of_item l).
Proof.
  induction l as [|a l IH]; intros H; simpl; [reflexivity|].
  rewrite (author_item_safe a) by (apply H; now left).
  cbn [bind]. rewrite IH by (intros v Hv; apply H; now right).
  reflexivity.
Qed.

(** When no item is [null] and no mapping item has a [null] among its
    affiliations, the normaliser raises nothing and returns, in the order of
    the input, one author for each string and each object-typed item; the
    other items (numbers, booleans, [undefined], as for a missing key) give
    nothing. *)
Theorem X9_normaliser_on_safe_items (author : jsval) :
  (forall v, In v (as_array author) -> safe_item v) ->
  parseAuthor author = Ok (flat_map author_of_item (as_array author)).
Proof.
  intros H. unfold parseAuthor. now apply author_items_safe.
Qed.

Lemma X9_witness :
  parseAuthor (JArr [JStr "A"; JNum (Finite (7 # 1));
                     JObj [("name", JStr "B"); ("orcid", JStr "0000")]])
  = Ok (flat_map author_of_item
          (as_array (JArr [JStr "A"; JNum (Finite (7 # 1));
                           JObj [("name", JStr "B"); ("orcid", JStr "0000")]]))).
Proof.
  apply X9_normaliser_on_safe_items.
  simpl. intros v [<-|[<-|[<-|[]]]]; (split; [discriminate|]).
  - intros item H; discriminate H.
  - intros item H; discriminate H.
  - intros item H. inversion H; subst. simpl. intros e [].
Defined.

(** A [null] among the author items makes the normaliser raise a
    [TypeError], whatever comes after it, when the items before it are safe:
    [typeof null] is ["object"] and reading [affiliation] of [null] throws. *)
Theorem X10_null_author_item_raises (before after : list jsval) :
  (forall v, In v before -> safe_item v) ->
  parseAuthor (JArr (before +++ JNull :: after)) = Throw TypeError.
Proof.
  intros H. unfold parseAuthor. cbn [as_array].
  rewrite author_items_app, (author_items_safe before H).
  reflexivity.
Qed.

Lemma X10_witness :
  parseAuthor (JArr ([JStr "A"] +++ JNull :: [JStr "B"])) = Throw TypeError.
Proof.
  apply X10_null_author_item_raises.
  intros v [<-|[]]. split; [discriminate|]. intros item H; discriminate H.
Defined.

(** The normaliser works item by item and keeps the order: the authors of a
    sequence made of two parts are those of the first part followed by those
    of the second, and it raises when one of the parts does. *)
Theorem X11_normaliser_follows_the_sequence (l1 l2 : list jsval) :
  parseAuthor (JArr (l1 +++ l2))
  = (xs <- parseAuthor (JArr l1) ;; ys <- parseAuthor (JArr l2) ;; Ok (xs +++ ys)).
Proof.
  unfold parseAuthor. cbn [as_array]. apply author_items_app.
Qed.

(** ** The columns of names and affiliations *)

Lemma name_rows_length (a : Author) :
  List.length (name_rows a) = Nat.max 1 (affil_count a).
Proof.
  unfold name_rows, affil_count, affil_rows.
  destruct (affil a) as [l|]; cbn [List.length]; rewrite repeat_length; lia.
Qed.

Lemma name_rows_head (a : Author) :
  exists rows, name_rows a = name a :: rows.
Proof. unfold name_rows. eauto. Qed.

Lemma columns_same_length (l : list Author) :
  (forall b, In b l -> (1 <= affil_count b)%nat) ->
  List.length (flat_map name_rows l) = List.length (flat_map affil_rows l).
Proof.
  induction l as [|a l IH]; intros H; cbn [flat_map]; [reflexivity|].
  rewrite !length_app, name_rows_length, IH by (intros b Hb; apply H; now right).
  assert (1 <= affil_count a)%nat by (apply H; now left).
  unfold affil_count in *. lia.
Qed.

(** The two columns line up: when every author has at least one
    affiliation, the names column and the affiliations column have the same
    number of rows, and the name of each author is on the row of the first
    of its affiliations. *)
Theorem X12_names_line_up_with_affiliations (l : list Author) :
  (forall b, In b l -> (1 <= affil_count b)%nat) ->
  List.length (flat_map name_rows l) = List.length (flat_map affil_rows l)
  /\ forall l1 a l2 first others,
       l = l1 +++ a :: l2 ->
       affil_rows a = first :: others ->
       nth_error (flat_map name_rows l) (List.length (flat_map affil_rows l1))
       = Some (name a)
       /\ nth_error (flat_map affil_rows l) (List.length (flat_map affil_rows l1))
          = Some first.
Proof.
  intros H. split; [now apply columns_same_length|].
  intros l1 a l2 first others -> Hrows.
  rewrite !flat_map_app. cbn [flat_map].
  assert (Hl1 : List.length (flat_map name_rows l1)
                = List.length (flat_map affil_rows l1)).
  { apply columns_same_length. intros b Hb. apply H, in_or_app. now left. }
  split.
  - rewrite <- Hl1, nth_error_app2, Nat.sub_diag by lia.
    destruct (name_rows_head a) as (rows & ->). reflexivity.
  - rewrite nth_error_app2, Nat.sub_diag by lia.
    rewrite Hrows. reflexivity.
Qed.

Lemma X12_witness :
  let l := [mkAuthor "A" (Some ["a1"; "a2"]) None; mkAuthor "B" (Some ["b1"]) None] in
  List.length (flat_map name_rows l) = List.length (flat_map affil_rows l)
  /\ forall l1 a l2 first others,
       l = l1 +++ a :: l2 ->
       affil_rows a = first :: others ->
       nth_error (flat_map name_rows l) (List.length (flat_map affil_rows l1))
       = Some (name a)
       /\ nth_error (flat_map affil_rows l) (List.length (flat_map affil_rows l1))
          = Some first.
Proof.
  apply (X12_names_line_up_with_affiliations
           [mkAuthor "A" (Some ["a1"; "a2"]) None; mkAuthor "B" (Some ["b1"]) None]).
  intros b [<-|[<-|[]]]; unfold affil_count; simpl; lia.
Defined.

(** The label of the names column is [Author] only when the column has a
    single row: for one author with at most one affiliation.  One author
    with two affiliations or more is labelled [Authors], the rows that keep
    the columns aligned being counted. *)
Theorem X13_author_label (tb : TitleBlock) (a : Author) (rest : list Author) :
  authors tb = Some (a :: rest) ->
  exists more,
    authors_blocks tb
    = renderDocMeta
        (if match rest with
            | [] => (affil_count a <=? 1)%nat
            | _ :: _ => false
            end
         then "Author" else "Authors")
        (flat_map name_rows (a :: rest))
      :: more.
Proof.
  intros Ha. unfold authors_blocks. rewrite Ha.
  eexists. f_equal. f_equal.
  cbn [flat_map]. rewrite length_app, name_rows_length.
  destruct rest as [|b rest].
  - cbn [flat_map List.length]. rewrite Nat.add_0_r.
    destruct (affil_count a <=? 1)%nat eqn:Hc.
    + apply Nat.leb_le in Hc.
      replace (Nat.max 1 (affil_count a)) with 1%nat by lia. reflexivity.
    + apply Nat.leb_gt in Hc.
      destruct (Nat.max 1 (affil_count a) =? 1)%nat eqn:Hm; [|reflexivity].
      apply Nat.eqb_eq in Hm. lia.
  - cbn [flat_map]. rewrite length_app, name_rows_length.
    destruct (Nat.max 1 (affil_count a)
              + (Nat.max 1 (affil_count b) + List.length (flat_map name_rows rest))
              =? 1)%nat eqn:Hm; [|reflexivity].
    apply Nat.eqb_eq in Hm. lia.
Qed.

Lemma X13_witness :
  exists more,
    authors_blocks (mkTitleBlock None None None None None None
                                 (Some [mkAuthor "A" (Some ["a1"; "a2"]) None]))
    = renderDocMeta
        (if (affil_count (mkAuthor "A" (Some ["a1"; "a2"]) None) <=? 1)%nat
         then "Author" else "Authors")
        (flat_map name_rows [mkAuthor "A" (Some ["a1"; "a2"]) None])
      :: more.
Proof.
  exact (X13_author_label
           (mkTitleBlock None None None None None None
                         (Some [mkAuthor "A" (Some ["a1"; "a2"]) None]))
           (mkAuthor "A" (Some ["a1"; "a2"]) None) [] eq_refl).
Defined.

(** ** When there is nothing to show *)

Lemma join_head (sep : string) (c : ascii) (x : string) (rest : list string) :
  exists t, join sep (String c x :: rest) = String c t.
Proof. destruct rest; simpl; eauto. Qed.

Lemma renderDocMeta_head (label : string) (vals : list string) :
  exists t, renderDocMeta label vals = String "<"%char t.
Proof.
  unfold renderDocMeta.
  change ("<div class=" ++ dq ++ "quarto-meta" ++ dq ++ ">")
    with (String "<"%char ("div class=" ++ dq ++ "quarto-meta" ++ dq ++ ">")).
  cbn [List.app]. apply join_head.
Qed.

Lemma metadataBlocks_empty (tb : TitleBlock) :
  metadataBlocks tb = []
  <-> (authors tb = None \/ authors tb = Some [])
      /\ opt_truthy (date tb) = false
      /\ opt_truthy (modified tb) = false
      /\ opt_truthy (doi tb) = false.
Proof.
  unfold metadataBlocks, authors_blocks.
  destruct (authors tb) as [[|a rest]|];
    destruct (opt_truthy (date tb)), (opt_truthy (modified tb)), (opt_truthy (doi tb));
    cbn [when List.app]; split;
    try discriminate;
    try (intros (_ & H1 & H2 & H3); discriminate);
    try (intros ([H|H] & _); discriminate H);
    intros _; repeat split; auto.
Qed.

(** The rendered title block is the empty text exactly when there is nothing
    to show: no title, subtitle, abstract, date, modified date or doi other
    than the empty string, and no author. *)
Theorem X14_title_block_empty_iff_nothing_to_show (tb : TitleBlock) :
  renderTitle tb = EmptyString
  <-> opt_truthy (title tb) = false
      /\ opt_truthy (subtitle tb) = false
      /\ opt_truthy (abstract tb) = false
      /\ opt_truthy (date tb) = false
      /\ opt_truthy (modified tb) = false
      /\ opt_truthy (doi tb) = false
      /\ (authors tb = None \/ authors tb = Some []).
Proof.
  unfold renderTitle.
  destruct (metadataBlocks tb) as [|blk blks] eqn:Hmeta.
  - destruct (proj1 (metadataBlocks_empty tb) Hmeta) as (Hau & Hd & Hm & Hi).
    destruct (opt_truthy (title tb)); cbn [when List.app].
    { split; [|intros (H & _); discriminate H].
      change ("<h1>" ++ opt_string (title tb) ++ "</h1>")
        with (String "<"%char ("h1>" ++ opt_string (title tb) ++ "</h1>")).
      destruct (join_head nl "<"%char ("h1>" ++ opt_string (title tb) ++ "</h1>")
                  (when (opt_truthy (subtitle tb))
                     ["<p class=" ++ dq ++ "quarto-subtitle" ++ dq ++ ">"
                      ++ opt_string (subtitle tb) ++ "</p>"]
                   +++ when (0 <? List.length (@nil string))%nat [renderDocMetas []]
                   +++ when (opt_truthy (abstract tb))
                         ["<p class=" ++ dq ++ "quarto-abstract" ++ dq ++ ">"
                          ++ opt_string (abstract tb) ++ "</p>"])) as (t & ->).
      discriminate. }
    destruct (opt_truthy (subtitle tb)); cbn [when List.app].
    { split; [|intros (_ & H & _); discriminate H].
      change ("<p class=" ++ dq ++ "quarto-subtitle" ++ dq ++ ">"
              ++ opt_string (subtitle tb) ++ "</p>")
        with (String "<"%char ("p class=" ++ dq ++ "quarto-subtitle" ++ dq ++ ">"
                               ++ opt_string (subtitle tb) ++ "</p>")).
      match goal with
      | |- join nl (String ?c ?x :: ?rest) = _ -> _ =>
          destruct (join_head nl c x rest) as (t & ->)
      end.
      discriminate. }
    cbn [List.length Nat.ltb Nat.leb when List.app].
    destruct (opt_truthy (abstract tb)); cbn [when List.app].
    { split; [|intros (_ & _ & H & _); discriminate H].
      cbn [join].
      change ("<p class=" ++ dq ++ "quarto-abstract" ++ dq ++ ">"
              ++ opt_string (abstract tb) ++ "</p>")
        with (String "<"%char ("p class=" ++ dq ++ "quarto-abstract" ++ dq ++ ">"
                               ++ opt_string (abstract tb) ++ "</p>")).
      discriminate. }
    split; [|reflexivity]. intros _. repeat split; assumption.
  - split.
    + intros Hr. exfalso. revert Hr.
      cbn [List.length Nat.ltb Nat.leb when].
      assert (Hblk : exists t, renderDocMetas (blk :: blks) = String "<"%char t).
      { unfold renderDocMetas.
        change ("<div class=" ++ dq ++ "quarto-meta-block" ++ dq ++ ">")
          with (String "<"%char ("div class=" ++ dq ++ "quarto-meta-block" ++ dq ++ ">")).
        cbn [List.app]. apply join_head. }
      destruct Hblk as (t & ->).
      destruct (opt_truthy (title tb)); cbn [when List.app].
      { change ("<h1>" ++ opt_string (title tb) ++ "</h1>")
          with (String "<"%char ("h1>" ++ opt_string (title tb) ++ "</h1>")).
        match goal with
        | |- join nl (String ?c ?x :: ?rest) = _ -> _ =>
            destruct (join_head nl c x rest) as (u & ->)
        end.
        discriminate. }
      destruct (opt_truthy (subtitle tb)); cbn [when List.app].
      { change ("<p class=" ++ dq ++ "quarto-subtitle" ++ dq ++ ">"
                ++ opt_string (subtitle tb) ++ "</p>")
          with (String "<"%char ("p class=" ++ dq ++ "quarto-subtitle" ++ dq ++ ">"
                                 ++ opt_string (subtitle tb) ++ "</p>")).
        match goal with
        | |- join nl (String ?c ?x :: ?rest) = _ -> _ =>
            destruct (join_head nl c x rest) as (u & ->)
        end.
        discriminate. }
      match goal with
      | |- join nl (String ?c ?x :: ?rest) = _ -> _ =>
          destruct (join_head nl c x rest) as (u & ->)
      end.
      discriminate.
    + intros (_ & _ & _ & Hd & Hm & Hi & Hau). exfalso.
      assert (He : metadataBlocks tb = []) by (apply metadataBlocks_empty; auto).
      rewrite He in Hmeta. discriminate.
Qed.

(** * The settings of the language server *)

Lemma convertDiagnosticLevel_defined (v : jsval) :
  exists l, convertDiagnosticLevel v = Some l
            /\ (l <> DL_ignore ->
                v = JStr "error" \/ v = JStr "warning" \/ v = JStr "hint").
Proof.
  unfold convertDiagnosticLevel.
  destruct v; cbn [strict_eq_string];
    try (exists DL_ignore; split; [reflexivity|intros H; now elim H]).
  destruct (String.eqb_spec s "error") as [->|].
  { exists DL_error. split; [reflexivity|]. intros _. now left. }
  destruct (String.eqb_spec s "warning") as [->|].
  { exists DL_warning. split; [reflexivity|]. intros _. right. now left. }
  destruct (String.eqb_spec s "ignore") as [->|].
  { exists DL_ignore. split; [reflexivity|]. intros H; now elim H. }
  destruct (String.eqb_spec s "hint") as [->|].
  { exists DL_hint. split; [reflexivity|]. intros _. right. now right. }
  exists DL_ignore. split; [reflexivity|]. intros H; now elim H.
Qed.

(** Whatever the host put in the settings, every level of the diagnostics
    options is defined, and a level other than [ignore] comes only from a
    setting that is exactly [error], [warning] or [hint] (for the fragments
    of links to files: from that setting or, when it is [inherit], from the
    one of fragment links).  The switch and the list of ignored links are
    copied. *)
Theorem X15_diagnostics_levels_are_defined (s : Settings) :
  let o := getDiagnosticsOptions (Some s) in
  let strict v := v = JStr "error" \/ v = JStr "warning" \/ v = JStr "hint" in
  do_enabled o = validate_enabled s
  /\ ignoreLinks o = validate_ignoredLinks s
  /\ (exists l, validateFileLinks o = Some l
                /\ (l <> DL_ignore -> strict (validate_fileLinks_enabled s)))
  /\ (exists l, validateReferences o = Some l
                /\ (l <> DL_ignore -> strict (validate_referenceLinks_enabled s)))
  /\ (exists l, validateFragmentLinks o = Some l
                /\ (l <> DL_ignore -> strict (validate_fragmentLinks_enabled s)))
  /\ (exists l, validateMarkdownFileLinkFragments o = Some l
                /\ (l <> DL_ignore ->
                    strict (validate_fileLinks_markdownFragmentLinks s)
                    \/ (validate_fileLinks_markdownFragmentLinks s = JStr "inherit"
                        /\ strict (validate_fragmentLinks_enabled s))))
  /\ (exists l, validateUnusedLinkDefinitions o = Some l
                /\ (l <> DL_ignore -> strict (validate_unusedLinkDefinitions_enabled s)))
  /\ (exists l, validateDuplicateLinkDefinitions o = Some l
                /\ (l <> DL_ignore ->
                    strict (validate_duplicateLinkDefinitions_enabled s))).
Proof.
  cbn [getDiagnosticsOptions do_enabled ignoreLinks validateFileLinks
       validateReferences validateFragmentLinks validateMarkdownFileLinkFragments
       validateUnusedLinkDefinitions validateDuplicateLinkDefinitions].
  split; [reflexivity|]. split; [reflexivity|].
  repeat split; try apply convertDiagnosticLevel_defined.
  destruct (strict_eq_string (validate_fileLinks_markdownFragmentLinks s) "inherit")
    eqn:Hinh.
  - destruct (convertDiagnosticLevel_defined (validate_fragmentLinks_enabled s))
      as (l & Hl & Hs).
    exists l. split; [exact Hl|]. intros Hne. right. split; [|auto].
    destruct (validate_fileLinks_markdownFragmentLinks s); try discriminate Hinh.
    cbn [strict_eq_string] in Hinh. apply String.eqb_eq in Hinh. now subst.
  - destruct (convertDiagnosticLevel_defined
                (validate_fileLinks_markdownFragmentLinks s)) as (l & Hl & Hs).
    exists l. split; [exact Hl|]. intros Hne. left. auto.
Qed.

(** The defaults agree: the options computed from the default settings are
    the default options, as are those computed when there are no settings,
    provided the run-time value of the level [ignore] is not read as another
    level. *)
Theorem X16_default_settings_give_default_options
        (level_value : DiagnosticLevel -> string) :
  convertDiagnosticLevel (JStr (level_value DL_ignore)) = Some DL_ignore ->
  getDiagnosticsOptions (Some (defaultSettings level_value))
  = kDefaultDiagnosticOptions
  /\ getDiagnosticsOptions None = kDefaultDiagnosticOptions.
Proof.
  intros H. split; [|reflexivity].
  unfold getDiagnosticsOptions, defaultSettings, kDefaultDiagnosticOptions.
  cbn [validate_enabled validate_fileLinks_enabled validate_referenceLinks_enabled
       validate_fragmentLinks_enabled validate_fileLinks_markdownFragmentLinks
       validate_unusedLinkDefinitions_enabled validate_duplicateLinkDefinitions_enabled
       validate_ignoredLinks do_enabled validateFileLinks validateReferences
       validateFragmentLinks validateUnusedLinkDefinitions
       validateDuplicateLinkDefinitions level_setting].
  rewrite H. reflexivity.
Qed.

Lemma X16_witness :
  getDiagnosticsOptions (Some (defaultSettings level_name))
  = kDefaultDiagnosticOptions
  /\ getDiagnosticsOptions None = kDefaultDiagnosticOptions.
Proof.
  exact (X16_default_settings_give_default_options level_name eq_refl).
Defined.

(** * Further edge behaviour of the plugin *)

(** ** A front matter that is a sequence or a date *)

(** A parsed value that is a sequence or a date passes the test on [typeof]
    like a mapping: no field is read from it, nothing is removed from it, and
    the renderer returns an empty title block followed by the dump of the
    value itself. *)
Theorem X17_sequence_or_date_is_dumped_whole
        (yaml_load : string -> result jsval) (yaml_dump : jsval -> string)
        (toks : list Token) (idx : nat) (token : Token) (v : jsval) :
  nth_error toks idx = Some token ->
  yaml_load (replace_closing_fence (tok_markup token)) = Ok v ->
  (exists items, v = JArr items) \/ (exists ms, v = JDate ms) ->
  extractTitleBlock v
  = Ok (mkTitleBlock None None None None None None (Some []), v)
  /\ renderFrontMatter yaml_load yaml_dump toks idx
     = Ok (nl ++ "<pre>" ++ nl ++ yaml_dump v ++ nl ++ "</pre>").
Proof.
  intros Htok Hload Hv. unfold renderFrontMatter, parseFrontMatterStr.
  rewrite Htok, Hload.
  destruct Hv as [(items & ->)|(ms & ->)]; split; reflexivity.
Qed.

Lemma X17_witness :
  extractTitleBlock (JArr [JStr "a"])
  = Ok (mkTitleBlock None None None None None None (Some []), JArr [JStr "a"])
  /\ renderFrontMatter yaml_load_sample yaml_dump_sample
       [mkToken "front_matter" EmptyString 0 0 true true
                ("---" ++ nl ++ "- a" ++ nl ++ "---") (Some (0, 11)) "- a"] 0
     = Ok (nl ++ "<pre>" ++ nl ++ yaml_dump_sample (JArr [JStr "a"]) ++ nl ++ "</pre>").
Proof.
  apply (X17_sequence_or_date_is_dumped_whole yaml_load_sample yaml_dump_sample
           [mkToken "front_matter" EmptyString 0 0 true true
                    ("---" ++ nl ++ "- a" ++ nl ++ "---") (Some (0, 11)) "- a"]
           0
           (mkToken "front_matter" EmptyString 0 0 true true
                    ("---" ++ nl ++ "- a" ++ nl ++ "---") (Some (0, 11)) "- a")
           (JArr [JStr "a"])).
  - reflexivity.
  - reflexivity.
  - left. now exists [JStr "a"].
Defined.

(** ** The inner content of a block that nothing closes *)

Lemma body_loop_runs_to_bound_start
      (fuel : nat) (st : StateBlock) (endLine mc : Z) (last : line_info) :
  (forall l, 1 <= l < endLine -> content_line st mc l = true /\ dots_line st l = false) ->
  read_line st (endLine - 1) = Some last ->
  forall nextLine start max pos,
    0 <= nextLine < endLine ->
    (nextLine = endLine - 1 -> start = li_start last) ->
    (Z.to_nat (endLine - nextLine - 1) < fuel)%nat ->
    String.eqb (slice (src st) start max) "..." = false ->
    exists m p, body_loop fuel st endLine mc nextLine start max pos
                = Ret (mkEnd endLine (li_start last) m p false).
Proof.
  intros Hlines Hlast.
  induction fuel as [|fuel IH]; intros nextLine start max pos Hn Hs Hfuel Hd.
  - lia.
  - cbn [body_loop].
    destruct (nextLine + 1 >=? endLine) eqn:Hge.
    { rewrite Z.geb_leb in Hge. apply Z.leb_le in Hge.
      exists max, pos. rewrite Hs by lia. do 2 f_equal. lia. }
    rewrite Z.geb_leb in Hge. apply Z.leb_gt in Hge.
    rewrite Hd.
    destruct (Hlines (nextLine + 1)) as (Hc & Hnd); [lia|].
    destruct (content_line_inv _ _ _ Hc) as (li & p & Hread & Hex).
    rewrite Hread, Hex.
    apply IH; [lia| |lia|].
    + intros E. rewrite E in Hread. congruence.
    + unfold dots_line in Hnd. rewrite Hread in Hnd. exact Hnd.
Qed.

(** When a block of at least one line below the fence is closed by the
    bound (no line stops or closes it, none is a line of three dots), all
    the lines are consumed, but the token's inner content stops one
    character before the start of the last line: the text of the last line
    is not part of it. *)
Theorem X18_unclosed_block_content_misses_last_line
        (fuel : nat) (has_cb : bool) (st : StateBlock) (endLine : Z)
        (mc pos start max : Z) (sc : option Z) (last : line_info) :
  opening st 0 = Ret (Some (mc, pos, sc, start, max)) ->
  2 <= endLine <= Z.of_nat fuel ->
  (forall l, 1 <= l < endLine -> content_line st mc l = true /\ dots_line st l = false) ->
  read_line st (endLine - 1) = Some last ->
  exists r token,
    frontMatter fuel has_cb st 0 endLine false = Ret r
    /\ line (state_after r) = endLine
    /\ tokens (state_after r) = tokens st +++ [token]
    /\ tok_meta token = slice_from (src st) sc (li_start last - 1)
    /\ cb_calls r = (if has_cb then [tok_meta token] else []).
Proof.
  intros Hopen Hfuel Hlines Hlast.
  destruct (body_loop_runs_to_bound_start fuel st endLine mc last Hlines Hlast
                                          0 start max pos)
    as (m & p & Hloop); try lia.
  { apply (opening_not_dots _ _ _ _ _ _ Hopen). }
  unfold frontMatter. rewrite Hopen, Hloop.
  eexists. eexists. split; [reflexivity|]. cbn.
  split; [unfold resume_line; cbn; lia|].
  repeat split; reflexivity.
Qed.

Lemma X18_witness :
  exists r token,
    frontMatter 3 true st_unclosed 0 3 false = Ret r
    /\ line (state_after r) = 3
    /\ tokens (state_after r) = tokens st_unclosed +++ [token]
    /\ tok_meta token
       = slice_from (src st_unclosed) (Some 4) (li_start (mkLine 6 7 0) - 1)
    /\ cb_calls r = (if true then [tok_meta token] else []).
Proof.
  apply (X18_unclosed_block_content_misses_last_line
           3 true st_unclosed 3 3 3 0 3 (Some 4) (mkLine 6 7 0)).
  - reflexivity.
  - simpl. lia.
  - intros l Hl. assert (Hc : l = 1 \/ l = 2) by lia.
    destruct Hc as [-> | ->]; split; reflexivity.
  - reflexivity.
Defined.

Lemma X5_witness :
  replace_closing_fence ("title: x" ++ nl ++ "---" ++ nl) = "title: x" ++ nl
  /\ replace_closing_fence (("a" ++ nl) ++ dashes 5) = ("a" ++ nl) ++ dashes (5 - 3).
Proof.
  destruct (X5_closing_fence_is_cut ("title: x" ++ nl)) as (Hcut & _).
  destruct (X5_closing_fence_is_cut ("a" ++ nl)) as (_ & Hrun).
  split.
  - exact (Hcut nl eq_refl).
  - apply Hrun. lia.
Defined.

(** * The lines of the body scan, from the opening fence on *)

(** When the lines before [k] are content and none is a line of three dots,
    the scan started on the opening fence arrives before line [k] after
    [k - 1] iterations, with offsets that are not those of a line of dots. *)
Lemma body_loop_arrives (st : StateBlock) (endLine mc k : Z) :
  (forall l, 1 <= l < k -> content_line st mc l = true /\ dots_line st l = false) ->
  k < endLine ->
  forall (n : nat) (nextLine start max pos : Z),
    nextLine = k - 1 - Z.of_nat n ->
    0 <= nextLine ->
    String.eqb (slice (src st) start max) "..." = false ->
    exists s0 m0 p0,
      String.eqb (slice (src st) s0 m0) "..." = false
      /\ forall rest,
           body_loop (n + rest) st endLine mc nextLine start max pos
           = body_loop rest st endLine mc (k - 1) s0 m0 p0.
Proof.
  intros Hlines Hk. induction n as [|n IH]; intros nextLine start max pos Hn H0 Hd.
  - exists start, max, pos. split; [exact Hd|]. intros rest.
    replace nextLine with (k - 1) by lia. reflexivity.
  - destruct (Hlines (nextLine + 1)) as (Hc & Hnd); [lia|].
    destruct (content_line_inv _ _ _ Hc) as (li & p & Hread & Hex).
    destruct (IH (nextLine + 1) (li_start li) (li_max li) (new_pos pos p))
      as (s0 & m0 & p0 & Hd0 & Heq); [lia|lia| |].
    { unfold dots_line in Hnd. rewrite Hread in Hnd. exact Hnd. }
    exists s0, m0, p0. split; [exact Hd0|]. intros rest.
    cbn [Nat.add body_loop].
    assert (Hge : (nextLine + 1 >=? endLine) = false).
    { rewrite Z.geb_leb. apply Z.leb_gt. lia. }
    rewrite Hge, Hd, Hread, Hex. apply Heq.
Qed.

(** The iteration that examines line [k]. *)
Lemma body_loop_step_at (fuel : nat) (st : StateBlock) (endLine mc k s0 m0 p0 : Z)
      (li : line_info) :
  k < endLine ->
  String.eqb (slice (src st) s0 m0) "..." = false ->
  read_line st k = Some li ->
  body_loop (S fuel) st endLine mc (k - 1) s0 m0 p0
  = match examine st mc li with
    | (Stop, p) =>
        Ret (mkEnd k (li_start li) (li_max li) (new_pos p0 p) false)
    | (Content, p) =>
        body_loop fuel st endLine mc k (li_start li) (li_max li) (new_pos p0 p)
    | (Closing, p) =>
        Ret (mkEnd k (li_start li) (li_max li) (new_pos p0 p) true)
    end.
Proof.
  intros Hk Hd Hread. cbn [body_loop].
  replace (k - 1 + 1) with k by lia.
  assert (Hge : (k >=? endLine) = false) by (rewrite Z.geb_leb; apply Z.leb_gt; lia).
  rewrite Hge, Hd, Hread. reflexivity.
Qed.

Lemma scan_arrives_at (fuel : nat) (st : StateBlock) (endLine k : Z)
      (mc pos start max : Z) (sc : option Z) :
  opening st 0 = Ret (Some (mc, pos, sc, start, max)) ->
  1 <= k < endLine ->
  k <= Z.of_nat fuel ->
  (forall l, 1 <= l < k -> content_line st mc l = true /\ dots_line st l = false) ->
  exists s0 m0 p0,
    String.eqb (slice (src st) s0 m0) "..." = false
    /\ body_loop fuel st endLine mc 0 start max pos
       = body_loop (S (fuel - Z.to_nat k)) st endLine mc (k - 1) s0 m0 p0.
Proof.
  intros Hopen Hk Hfuel Hlines.
  destruct (body_loop_arrives st endLine mc k Hlines (proj2 Hk)
                              (Z.to_nat (k - 1)) 0 start max pos)
    as (s0 & m0 & p0 & Hd0 & Heq); [lia|lia| |].
  { apply (opening_not_dots _ _ _ _ _ _ Hopen). }
  exists s0, m0, p0. split; [exact Hd0|].
  rewrite <- Heq. f_equal. lia.
Qed.

(** C5 (amended). In the body scan that follows a valid opening fence, a line
    reached by the scan that is outdented (not empty and indented less than
    the enclosing block) stops the scan: it is neither accepted as the
    closing fence nor treated as content, whatever the four conditions say.
    A line reached by the scan that is not outdented is accepted as the
    closing fence exactly when the four conditions hold, the length of its
    run being compared with the length of the opening run; the scan then
    stops on it with the fence found.  When one of them fails the line is
    ordinary content: the scan goes on from that line. *)
Theorem C5_closing_fence_iff_conditions_unless_outdented
        (fuel : nat) (st : StateBlock) (endLine k : Z)
        (mc pos start max : Z) (sc : option Z) (li : line_info) :
  opening st 0 = Ret (Some (mc, pos, sc, start, max)) ->
  1 <= k < endLine ->
  k <= Z.of_nat fuel ->
  (forall l, 1 <= l < k -> content_line st mc l = true /\ dots_line st l = false) ->
  read_line st k = Some li ->
  li_start li <= li_max li ->
  char_at (src st) (li_max li) <> Some "-"%char ->
  let scan := body_loop fuel st endLine mc 0 start max pos in
  (outdented st li ->
   fst (examine st mc li) = Stop
   /\ exists p, scan = Ret (mkEnd k (li_start li) (li_max li) p false))
  /\ (~ outdented st li ->
      (fst (examine st mc li) = Closing <-> closing_conditions st mc li)
      /\ (closing_conditions st mc li ->
          exists p, scan = Ret (mkEnd k (li_start li) (li_max li) p true))
      /\ (~ closing_conditions st mc li ->
          fst (examine st mc li) = Content
          /\ exists p, scan = body_loop (fuel - Z.to_nat k) st endLine mc k
                                         (li_start li) (li_max li) p)).
Proof.
  intros Hopen Hk Hfuel Hlines Hread Hle Heol scan.
  destruct (scan_arrives_at fuel st endLine k mc pos start max sc
                            Hopen Hk Hfuel Hlines) as (s0 & m0 & p0 & Hd0 & Hscan).
  unfold scan. rewrite Hscan.
  rewrite (body_loop_step_at _ st endLine mc k s0 m0 p0 li (proj2 Hk) Hd0 Hread).
  split.
  - intros (Hne & Hind).
    assert (Hex : examine st mc li = (Stop, None)).
    { unfold examine.
      apply Z.ltb_lt in Hne. apply Z.ltb_lt in Hind. now rewrite Hne, Hind. }
    rewrite Hex. split; [reflexivity|]. eexists. reflexivity.
  - intros Hno.
    assert (Hcand : candidate_line st li).
    { unfold candidate_line. repeat split; try assumption.
      destruct (li_start li <? li_max li) eqn:H1; [|reflexivity].
      destruct (li_sCount li <? blkIndent st) eqn:H2; [|reflexivity].
      exfalso. apply Hno. split; [now apply Z.ltb_lt|now apply Z.ltb_lt]. }
    destruct (examine_closing_iff st mc li Hcand) as (Hiff & Hother).
    split; [exact Hiff|]. split.
    + intros Hc. apply Hiff in Hc.
      destruct (examine st mc li) as [v p]. cbn [fst] in Hc. subst v.
      eexists. reflexivity.
    + intros Hn.
      assert (Hv : fst (examine st mc li) = Content).
      { apply Hother. intros Hc. apply Hn, Hiff, Hc. }
      split; [exact Hv|].
      destruct (examine st mc li) as [v p]. cbn [fst] in Hv. subst v.
      eexists. reflexivity.
Qed.

Lemma C5_witness :
  closing_conditions st_foo 3 (mkLine 15 18 0)
  /\ fst (examine st_foo 3 (mkLine 15 18 0)) = Closing
  /\ exists p, body_loop 5 st_foo 5 3 0 0 3 3 = Ret (mkEnd 2 15 18 p true).
Proof.
  destruct (C5_closing_fence_iff_conditions_unless_outdented
              5 st_foo 5 2 3 3 0 3 (Some 4) (mkLine 15 18 0))
    as (_ & Hfence).
  - reflexivity.
  - lia.
  - simpl. lia.
  - intros l Hl. assert (l = 1) as -> by lia. split; reflexivity.
  - reflexivity.
  - simpl. lia.
  - discriminate.
  - destruct Hfence as (Hiff & Hclose & _).
    + intros (_ & Hind). simpl in Hind. lia.
    + assert (Hc : closing_conditions st_foo 3 (mkLine 15 18 0))
        by (apply Hiff; reflexivity).
      split; [exact Hc|]. split; [reflexivity|]. exact (Hclose Hc).
Defined.

(** C5 as stated fails: in the list item whose first line is [- x--], the
    line of three markers at the margin satisfies the four conditions for
    the opening run of length 3, and it is not accepted as the closing fence:
    it stops the scan, and the parser resumes on it. *)
Lemma C5_counterexample :
  opening st_item_fence 0 = Ret (Some (3, 5, Some 6, 2, 5))
  /\ read_line st_item_fence 1 = Some (mkLine 6 9 0)
  /\ closing_conditions st_item_fence 3 (mkLine 6 9 0)
  /\ fst (examine st_item_fence 3 (mkLine 6 9 0)) = Stop
  /\ closing_line st_item_fence 3 1 = false
  /\ content_line st_item_fence 3 1 = false
  /\ body_loop 3 st_item_fence 3 3 0 2 5 5 = Ret (mkEnd 1 6 9 5 false)
  /\ exists r, frontMatter 3 false st_item_fence 0 3 false = Ret r
               /\ line (state_after r) = 1.
Proof.
  split; [reflexivity|]. split; [reflexivity|]. split.
  { unfold closing_conditions. cbn [li_start li_max li_sCount].
    split; [reflexivity|]. split; [simpl; lia|].
    exists 9. split; [lia|]. split.
    - intros i Hi. assert (Hc : i = 6 \/ i = 7 \/ i = 8) by lia.
      destruct Hc as [-> | [-> | ->]]; reflexivity.
    - split; [discriminate|]. split; [lia|]. intros i Hi. lia. }
  split; [reflexivity|]. split; [reflexivity|]. split; [reflexivity|].
  split; [reflexivity|].
  eexists. split; reflexivity.
Qed.

(** C10 (amended). In the body scan that follows a valid opening fence, a
    line reached by the scan whose text between its start and end offsets is
    exactly three dots, and which is not indented less than the enclosing
    block, is examined as content (it fails the marker condition of a
    closing fence), and the test made at the next iteration on the offsets it
    left ends the scan whatever the lines after it are: the rule matches, the
    line of dots is the last line of the block, the fence-found flag is not
    set, the parser resumes on the line immediately after it, and the token's
    inner content stops one character before the start of the line of dots.
    When such a line is not empty by its offsets and is indented less than
    the enclosing block, the scan stops on it instead and the parser resumes
    on the line of dots itself. *)
Theorem C10_three_dots_line_ends_block_unless_outdented
        (fuel : nat) (has_cb : bool) (st : StateBlock) (endLine k : Z)
        (mc pos start max : Z) (sc : option Z) (li : line_info) :
  opening st 0 = Ret (Some (mc, pos, sc, start, max)) ->
  1 <= k < endLine ->
  k + 1 <= Z.of_nat fuel ->
  (forall l, 1 <= l < k -> content_line st mc l = true /\ dots_line st l = false) ->
  read_line st k = Some li ->
  slice (src st) (li_start li) (li_max li) = "..." ->
  (blkIndent st <= li_sCount li ->
   fst (examine st mc li) = Content
   /\ ~ closing_conditions st mc li
   /\ (exists p, body_loop fuel st endLine mc 0 start max pos
                 = Ret (mkEnd (k + 1) (li_start li) (li_max li) p false))
   /\ exists r token,
        frontMatter fuel has_cb st 0 endLine false = Ret r
        /\ matched r = true
        /\ line (state_after r) = k + 1
        /\ tokens (state_after r) = tokens st +++ [token]
        /\ tok_meta token = slice_from (src st) sc (li_start li - 1))
  /\ (outdented st li ->
      exists r,
        frontMatter fuel has_cb st 0 endLine false = Ret r
        /\ matched r = true
        /\ line (state_after r) = k).
Proof.
  intros Hopen Hk Hfuel Hlines Hread Hdots.
  destruct (scan_arrives_at fuel st endLine k mc pos start max sc
                            Hopen Hk ltac:(lia) Hlines) as (s0 & m0 & p0 & Hd0 & Hscan).
  pose proof (body_loop_step_at (fuel - Z.to_nat k) st endLine mc k s0 m0 p0 li
                                (proj2 Hk) Hd0 Hread) as Hstep.
  split.
  - intros Hind.
    assert (Hex : examine st mc li = (Content, None)).
    { unfold examine.
      assert (Hlt : (li_sCount li <? blkIndent st) = false) by (apply Z.ltb_ge; lia).
      rewrite Hlt, andb_false_r.
      rewrite (dots_not_marker _ _ _ Hdots). reflexivity. }
    assert (Hloop : body_loop fuel st endLine mc 0 start max pos
                    = Ret (mkEnd (k + 1) (li_start li) (li_max li) p0 false)).
    { rewrite Hscan, Hstep, Hex. cbn [new_pos].
      replace (fuel - Z.to_nat k)%nat with (S (fuel - Z.to_nat k - 1)) by lia.
      cbn [body_loop].
      destruct (k + 1 >=? endLine); [reflexivity|].
      rewrite Hdots. reflexivity. }
    split; [rewrite Hex; reflexivity|]. split.
    { intros (Ha & _). apply is_marker_code in Ha.
      rewrite (dots_not_marker _ _ _ Hdots) in Ha. discriminate. }
    split; [eexists; exact Hloop|].
    unfold frontMatter. rewrite Hopen, Hloop.
    eexists. eexists. split; [reflexivity|]. cbn.
    split; [reflexivity|]. split; [unfold resume_line; cbn; lia|].
    split; reflexivity.
  - intros (Hne & Hind).
    assert (Hex : examine st mc li = (Stop, None)).
    { unfold examine.
      apply Z.ltb_lt in Hne. apply Z.ltb_lt in Hind. now rewrite Hne, Hind. }
    unfold frontMatter. rewrite Hopen, Hscan, Hstep, Hex.
    eexists. split; [reflexivity|]. cbn.
    split; [reflexivity|]. unfold resume_line. cbn. lia.
Qed.

Lemma C10_witness :
  fst (examine st_dots 3 (mkLine 4 7 0)) = Content
  /\ ~ closing_conditions st_dots 3 (mkLine 4 7 0)
  /\ (exists p, body_loop 4 st_dots 4 3 0 0 3 3
                = Ret (mkEnd (1 + 1) 4 7 p false))
  /\ exists r token,
       frontMatter 4 true st_dots 0 4 false = Ret r
       /\ matched r = true
       /\ line (state_after r) = 1 + 1
       /\ tokens (state_after r) = tokens st_dots +++ [token]
       /\ tok_meta token
          = slice_from (src st_dots) (Some 4) (li_start (mkLine 4 7 0) - 1).
Proof.
  destruct (C10_three_dots_line_ends_block_unless_outdented
              4 true st_dots 4 1 3 3 0 3 (Some 4) (mkLine 4 7 0))
    as (Hdots & _).
  - reflexivity.
  - lia.
  - simpl. lia.
  - intros l Hl. lia.
  - reflexivity.
  - reflexivity.
  - apply Hdots. simpl. lia.
Defined.

(** C10 as stated fails: in the list item whose first line is [- x--], the
    line of three dots at the margin stops the scan before it is taken as
    content: it is not consumed, and the parser resumes on the line of dots,
    not on the line after it. *)
Lemma C10_counterexample :
  opening st_item_dots 0 = Ret (Some (3, 5, Some 6, 2, 5))
  /\ read_line st_item_dots 1 = Some (mkLine 6 9 0)
  /\ slice (src st_item_dots) 6 9 = "..."
  /\ fst (examine st_item_dots 3 (mkLine 6 9 0)) = Stop
  /\ body_loop 3 st_item_dots 3 3 0 2 5 5 = Ret (mkEnd 1 6 9 5 false)
  /\ exists r, frontMatter 3 false st_item_dots 0 3 false = Ret r
               /\ line (state_after r) = 1
               /\ line (state_after r) <> 1 + 1.
Proof.
  repeat (split; [reflexivity|]).
  eexists. split; [reflexivity|]. split; [reflexivity|]. discriminate.
Qed.
